(** * sfselector/consumer.go: selective test consumer

    A shallow embedding of [pkg/cmd/roachtest-selector/sfselector/consumer.go]:
    the loader that turns the CSV produced by the test selector into a
    [map[string]*testInfo], and the pass over [[]registry.TestSpec] that
    marks the tests to skip and counts the others.

    Go values are modelled as follows.
    - [string] and [[]byte] are [string] (a list of 8-bit characters);
    - [int], [int64] and [uint64] are [Z]; where the Go code can wrap
      around, the wrap-around is written out ([wrap_uint64], [to_int64]).
      [int] is taken to be 64 bits wide, as on every platform the
      repository builds for;
    - [map[string]*testInfo] is [gmap string testInfo]: every pointer stored
      in the map is freshly allocated and never shared, so the map of
      values is the map of pointers;
    - the slice [tests] shares its backing array with the caller, so the
      function returns the final content of that array next to its Go
      results;
    - a Go panic is an outcome of its own ([Panicked]). *)

From Stdlib Require Import ZArith Ascii String Lia.
From stdpp Require Import base gmap strings list fin_maps.

Local Open Scope string_scope.
Local Open Scope list_scope.
Local Open Scope Z_scope.

(** ** The data model *)

(** Modelled from the spec: [registry.SuiteSet], whose declaration is not in
    this file of the repository. The spec describes it as
    "set-of-string | uninitialized-marker": [None] is the uninitialised
    set, [Some s] an initialised set of suite names. *)
Definition SuiteSet : Type := option (gset string).

(** Modelled from the spec: [SuiteSet.IsInitialized] separates the two states
    of the opt-out set. *)
Definition IsInitialized (ss : SuiteSet) : bool :=
  match ss with
  | Some _ => true
  | None => false
  end.

(** Modelled from the spec: [SuiteSet.Contains] is membership of an initialised
    set. The source only calls it behind [IsInitialized() &&], so the value
    at [None] is never observed. *)
Definition Contains (ss : SuiteSet) (suite : string) : bool :=
  match ss with
  | Some s => bool_decide (suite ∈ s)
  | None => false
  end.

(** The fields of [registry.TestSpec] that [consumer.go] reads or writes.
    The remaining fields of the struct are neither read nor written here. *)
Record TestSpec : Type := mkTestSpec {
  Name : string;
  Skip : string;
  SkipDetails : string;
  TestSelectionOptOutSuites : SuiteSet;
}.

(** [testInfo] captures the information available from the csv. *)
Record testInfo : Type := mkTestInfo {
  selected : bool;
  avgDurationInMillis : Z;
  totalRuns : Z;
}.

Global Instance TestSpec_eq_dec : EqDecision TestSpec.
Proof. solve_decision. Defined.

Global Instance testInfo_eq_dec : EqDecision testInfo.
Proof. solve_decision. Defined.

(** ** The selector *)

(** [testShouldBeSkipped] (consumer.go:118-127). The [for] statement of the
    source returns in its first iteration, so it is an [if]. *)
Definition testShouldBeSkipped
    (testNamesToRun : gmap string testInfo) (test : TestSpec) (suite : string) : bool :=
  if IsInitialized (TestSelectionOptOutSuites test)
     && Contains (TestSelectionOptOutSuites test) suite
  then false
  else
    match testNamesToRun !! Name test with
    | Some toRun => String.eqb (Skip test) "" && negb (selected toRun)
    | None => false
    end.

Definition skipMarker : string := "test selector".
Definition skipDetailsText : string :=
  "test skipped because it is stable and selective-tests is set.".

(** The two assignments of consumer.go:96-97 on one element. *)
Definition markSkipped (t : TestSpec) : TestSpec :=
  {| Name := Name t;
     Skip := skipMarker;
     SkipDetails := skipDetailsText;
     TestSelectionOptOutSuites := TestSelectionOptOutSuites t |}.

(** The state of the loop of consumer.go:93-101: the backing array of
    [tests] and [selectedTestsCount]. *)
Definition selState : Type := list TestSpec * Z.

(** One iteration of [for i := range tests]. The index is always in range,
    since the loop runs over the indices of [tests] and the body does not
    change its length; out of range the step leaves the state as it is. *)
Definition selectStep
    (testNamesToRun : gmap string testInfo) (suite : string)
    (st : selState) (i : nat) : selState :=
  match st.1 !! i with
  | Some t =>
      if testShouldBeSkipped testNamesToRun t suite
      then (<[i := markSkipped t]> st.1, st.2)
      else (st.1, st.2 + 1)
  | None => st
  end.

(** consumer.go:93-101: the pass over [tests], started with
    [selectedTestsCount := 0]. *)
Definition selectTests
    (testNamesToRun : gmap string testInfo) (suite : string)
    (tests : list TestSpec) : selState :=
  foldl (selectStep testNamesToRun suite) (tests, 0) (seq 0 (length tests)).

(** ** strconv.ParseInt, as called by the loader

    [getDuration] and [getTotalRuns] call [strconv.ParseInt(s, 10, 64)] and
    drop its error. The two functions below follow the Go standard library
    for that call: base 10 (so no base prefix and no underscores) and
    bitSize 64. *)

Inductive numError : Type :=
  | ErrSyntax
  | ErrRange.

Global Instance numError_eq_dec : EqDecision numError.
Proof. solve_decision. Defined.

Definition byteZ (c : ascii) : Z := Z.of_N (N_of_ascii c).

Definition maxUint64 : Z := 2 ^ 64 - 1.
Definition wrap_uint64 (z : Z) : Z := z mod 2 ^ 64.

(** [int64(u)] for an unsigned 64-bit [u], and negation on [int64]. *)
Definition to_int64 (z : Z) : Z := (z + 2 ^ 63) mod 2 ^ 64 - 2 ^ 63.
Definition neg_int64 (z : Z) : Z := to_int64 (- z).

Definition MaxInt64 : Z := 2 ^ 63 - 1.
Definition MinInt64 : Z := - 2 ^ 63.

(** [lower(c)] is [c | ('x' - 'X')]. *)
Definition lower (c : Z) : Z := Z.lor c 32.

(** The [switch] on one byte inside the loop of [ParseUint]: the digit value,
    or [None] where the source takes its [default] branch. The underscore
    case needs [base == 0] and does not apply. *)
Definition digitVal (c : Z) : option Z :=
  if (48 <=? c) && (c <=? 57) then Some (c - 48)
  else if (97 <=? lower c) && (lower c <=? 122) then Some (lower c - 97 + 10)
  else None.

(** [cutoff] is the smallest number such that [cutoff*base > maxUint64]. *)
Definition cutoff10 : Z := maxUint64 / 10 + 1.

(** The loop [for _, c := range []byte(s)] of [ParseUint], with [n] the
    accumulator. *)
Fixpoint ParseUint_loop (s : string) (n : Z) : Z * option numError :=
  match s with
  | EmptyString => (n, None)
  | String c s' =>
      match digitVal (byteZ c) with
      | None => (0, Some ErrSyntax)
      | Some d =>
          if 10 <=? d then (0, Some ErrSyntax)
          else if cutoff10 <=? n then (maxUint64, Some ErrRange)
          else
            let n10 := wrap_uint64 (n * 10) in
            let n1 := wrap_uint64 (n10 + d) in
            if (n1 <? n10) || (maxUint64 <? n1) then (maxUint64, Some ErrRange)
            else ParseUint_loop s' n1
      end
  end.

(** [strconv.ParseUint(s, 10, 64)]. *)
Definition ParseUint (s : string) : Z * option numError :=
  match s with
  | EmptyString => (0, Some ErrSyntax)
  | _ => ParseUint_loop s 0
  end.

(** [strconv.ParseInt(s, 10, 64)]: the value and the kind of the error, if
    any. A syntax error gives 0; a range error gives the bound of [int64] on
    the side of the sign. *)
Definition ParseInt (s : string) : Z * option numError :=
  match s with
  | EmptyString => (0, Some ErrSyntax)
  | String c0 s1 =>
      let neg := Ascii.eqb c0 "-" in
      let s' := if Ascii.eqb c0 "+" then s1 else if neg then s1 else s in
      let '(un, err) := ParseUint s' in
      match err with
      | Some ErrSyntax => (0, Some ErrSyntax)
      | _ =>
          let cutoff := 2 ^ 63 in
          if negb neg && (cutoff <=? un) then (to_int64 (cutoff - 1), Some ErrRange)
          else if neg && (cutoff <? un) then (neg_int64 (to_int64 cutoff), Some ErrRange)
          else
            let n := to_int64 un in
            ((if neg then neg_int64 n else n), None)
      end
  end.

(** [getDuration] extracts the duration from the csv data. *)
Definition getDuration (durationStr : string) : Z :=
  (ParseInt durationStr).1.

(** [getTotalRuns] extracts the total runs from the csv data. The conversion
    [int(totalRuns)] is the identity on a 64-bit [int]. *)
Definition getTotalRuns (totalRunsStr : string) : Z :=
  (ParseInt totalRunsStr).1.

(** ** The loader: from CSV records to the table *)

(** A run-time panic of the Go program. The only one this file can raise is
    an index out of range. *)
Inductive panic : Type :=
  | IndexOutOfRange (index len : nat).

Global Instance panic_eq_dec : EqDecision panic.
Proof. solve_decision. Defined.

(** Code that may panic: a value or the panic. *)
Inductive mayPanic (A : Type) : Type :=
  | Val (a : A)
  | Panic (p : panic).
Arguments Val {A} a.
Arguments Panic {A} p.

Global Instance mayPanic_ret : MRet mayPanic := fun A a => Val a.

Global Instance mayPanic_bind : MBind mayPanic := fun A B k m =>
  match m with
  | Val a => k a
  | Panic p => Panic p
  end.

(** [d[i]] on a slice of strings. *)
Definition at_index (d : list string) (i : nat) : mayPanic string :=
  match d !! i with
  | Some s => Val s
  | None => Panic (IndexOutOfRange i (length d))
  end.

(** The body of the loop of consumer.go:86-92 for one record [d]. The Go
    specification orders the function calls of a statement, not its index
    expressions; the compiled program makes the two calls, each with its
    argument, before it reads the plain operands: [getDuration(d[2])], then
    [getTotalRuns(d[3])], then [d[0]] and [d[1]]. So a record too short is
    first read out of range at index 2, or at index 3 when it has three
    fields. *)
Definition loadRow (testNamesToRun : gmap string testInfo) (d : list string)
    : mayPanic (gmap string testInfo) :=
  d2 ← at_index d 2;
  let duration := getDuration d2 in
  d3 ← at_index d 3;
  let runs := getTotalRuns d3 in
  d0 ← at_index d 0;
  d1 ← at_index d 1;
  mret (<[d0 := {| selected := negb (String.eqb d1 "no");
                  avgDurationInMillis := duration;
                  totalRuns := runs |}]> testNamesToRun).

(** [for _, d := range rows { ... }] of consumer.go:86-92. *)
Fixpoint loadRows (testNamesToRun : gmap string testInfo) (rows : list (list string))
    : mayPanic (gmap string testInfo) :=
  match rows with
  | [] => Val testNamesToRun
  | d :: rows' =>
      m ← loadRow testNamesToRun d;
      loadRows m rows'
  end.

(** ** encoding/csv: Reader.ReadAll on an in-memory payload

    [csv.NewReader(bytes.NewReader(body)).ReadAll()] with the settings
    [NewReader] gives: [Comma = ','], no [Comment], [FieldsPerRecord = 0],
    [LazyQuotes = false], [TrimLeadingSpace = false]. The definitions follow
    [readLine], [readRecord] and [ReadAll] of the Go standard library; the
    line and column of a [ParseError] are left out. Reading from a
    [bytes.Reader] only fails with [io.EOF]. *)

Definition newline : ascii := "010"%char.
Definition carriageReturn : ascii := "013"%char.
Definition dquote : ascii := "034"%char.
Definition comma : ascii := ","%char.

(** [ParseError.Err]. *)
Inductive csvError : Type :=
  | ErrBareQuote
  | ErrQuote
  | ErrFieldCount.

Global Instance csvError_eq_dec : EqDecision csvError.
Proof. solve_decision. Defined.

(** [i := bytes.IndexByte(s, c)] together with the two slices [s[:i]] and
    [s[i+1:]]; [None] stands for [i < 0]. *)
Fixpoint cut (c : ascii) (s : string) : option (string * string) :=
  match s with
  | EmptyString => None
  | String a s' =>
      if Ascii.eqb a c then Some (EmptyString, s')
      else
        match cut c s' with
        | Some (pre, post) => Some (String a pre, post)
        | None => None
        end
  end.

(** [s[:len(s)-1]] and [s[len(s)-1]] of a non-empty [s]. *)
Fixpoint unsnoc (s : string) : option (string * ascii) :=
  match s with
  | EmptyString => None
  | String a s' =>
      match unsnoc s' with
      | None => Some (EmptyString, a)
      | Some (init, z) => Some (String a init, z)
      end
  end.

(** [lengthNL] reports the number of bytes for the trailing \n. *)
Definition lengthNL (b : string) : nat :=
  match unsnoc b with
  | Some (_, z) => if Ascii.eqb z newline then 1%nat else 0%nat
  | None => 0%nat
  end.

(** [b[:len(b)-lengthNL(b)]]. *)
Definition trimNL (b : string) : string :=
  match unsnoc b with
  | Some (init, z) => if Ascii.eqb z newline then init else b
  | None => b
  end.

(** For backwards compatibility, drop trailing \r before EOF. *)
Definition dropTrailingCR (line : string) : string :=
  match unsnoc line with
  | Some (init, z) => if Ascii.eqb z carriageReturn then init else line
  | None => line
  end.

(** Normalize \r\n to \n on all input lines. *)
Definition normalizeCRLF (line : string) : string :=
  match unsnoc line with
  | Some (init, z) =>
      if Ascii.eqb z newline then
        match unsnoc init with
        | Some (init', y) =>
            if Ascii.eqb y carriageReturn then init' +:+ String newline EmptyString
            else line
        | None => line
        end
      else line
  | None => line
  end.

(** [readLine]: the next line with its \n, the input left, and whether the
    result is [io.EOF]. *)
Definition readLine (input : string) : string * string * bool :=
  match cut newline input with
  | Some (pre, rest) =>
      (normalizeCRLF (pre +:+ String newline EmptyString), rest, false)
  | None =>
      match input with
      | EmptyString => (EmptyString, EmptyString, true)
      | _ => (normalizeCRLF (dropTrailingCR input), EmptyString, false)
      end
  end.

(** The first byte of [line], if any: enough to compare [nextRune(line)]
    with the one-byte runes [','] and the quote. *)
Definition nextByte (line : string) : option ascii :=
  match line with
  | EmptyString => None
  | String a _ => Some a
  end.

Definition byteIs (c : ascii) (o : option ascii) : bool :=
  match o with
  | Some a => Ascii.eqb a c
  | None => false
  end.

(** [s[1:]] of a non-empty [s]. *)
Definition tail1 (s : string) : string :=
  match s with
  | EmptyString => EmptyString
  | String _ s' => s'
  end.

(** The control points of [ReadAll]: the three nested loops, with the
    variables live at the head of each, and the [return]. [fpr] is
    [r.FieldsPerRecord], [records] the result under construction. *)
Inductive csvState : Type :=
  | AtRecord (input : string) (fpr : nat) (records : list (list string))
  | AtField (line input : string) (dst : list string)
            (fpr : nat) (records : list (list string))
  | InQuotes (line input : string) (buf : string) (dst : list string)
             (fpr : nat) (records : list (list string))
  | Finished (r : csvError + list (list string)).

(** The end of [readRecord] for a record without error: check or update the
    expected fields per record; [ReadAll] then appends the record. *)
Definition endRecord (dst : list string) (input : string)
    (fpr : nat) (records : list (list string)) : csvState :=
  if (0 <? fpr)%nat then
    if negb (length dst =? fpr)%nat then Finished (inl ErrFieldCount)
    else AtRecord input fpr (records ++ [dst])
  else AtRecord input (length dst) (records ++ [dst]).

Definition csvStep (s : csvState) : csvState :=
  match s with
  | AtRecord input fpr records =>
      (* read line, skipping past empty lines *)
      let '(line, rest, eof) := readLine input in
      if eof then Finished (inr records)
      else if (String.length line =? lengthNL line)%nat then AtRecord rest fpr records
      else AtField line rest [] fpr records
  | AtField line input dst fpr records =>
      if byteIs dquote (nextByte line) then
        (* quoted string field *)
        InQuotes (tail1 line) input EmptyString dst fpr records
      else
        (* non-quoted string field *)
        let '(field, next) :=
          match cut comma line with
          | Some (f, line') => (f, Some line')
          | None => (trimNL line, None)
          end in
        if bool_decide (is_Some (cut dquote field)) then Finished (inl ErrBareQuote)
        else
          match next with
          | Some line' => AtField line' input (dst ++ [field]) fpr records
          | None => endRecord (dst ++ [field]) input fpr records
          end
  | InQuotes line input buf dst fpr records =>
      match cut dquote line with
      | Some (pre, line') =>
          (* hit next quote *)
          let buf' := buf +:+ pre in
          if byteIs dquote (nextByte line') then
            InQuotes (tail1 line') input (buf' +:+ String dquote EmptyString)
                     dst fpr records
          else if byteIs comma (nextByte line') then
            AtField (tail1 line') input (dst ++ [buf']) fpr records
          else if (lengthNL line' =? String.length line')%nat then
            endRecord (dst ++ [buf']) input fpr records
          else Finished (inl ErrQuote)
      | None =>
          if (0 <? String.length line)%nat then
            (* hit end of line (copy all data so far) *)
            let '(line', rest, _) := readLine input in
            InQuotes line' rest (buf +:+ line) dst fpr records
          else
            (* abrupt end of file *)
            Finished (inl ErrQuote)
      end
  | Finished r => Finished r
  end.

(** Iterate [csvStep] until the [return]; [None] when the bound on the
    number of steps is used up. *)
Fixpoint csvRun (fuel : nat) (s : csvState) : option (csvError + list (list string)) :=
  match s with
  | Finished r => Some r
  | _ =>
      match fuel with
      | O => None
      | S fuel' => csvRun fuel' (csvStep s)
      end
  end.

(** [cr.ReadAll()] on [body]. Every step but the last consumes input, so the
    bound is never reached ([csv_ReadAll_total] below). *)
Definition csv_ReadAll (body : string) : option (csvError + list (list string)) :=
  csvRun (3 * String.length body + 3) (AtRecord body 0 []).

(** ** The remote store and ReadTestsToRun *)

(** [option.ClientOption], as far as this file builds them. *)
Inductive ClientOption : Type :=
  | WithScopes (scope : list string)
  | WithQuotaProject (quotaProject : string)
  | WithCredentialsJSON (p : string).

(** [storage.ScopeReadOnly]. *)
Definition ScopeReadOnly : string :=
  "https://www.googleapis.com/auth/devstorage.read_only".

(** Go [error] values: what the store and [io] report, a [*csv.ParseError],
    and [errors.NewAssertionErrorWithWrappedErrf(cause, msg)]. *)
Inductive error : Type :=
  | StoreError (msg : string)
  | CsvParseError (e : csvError)
  | AssertionErrorWrapped (cause : error) (msg : string).

(** The package-level constants [project], [bucket], [testsFileLocation] and
    [testsCsvExtension]; they are declared in another file of the package and
    are taken as parameters. *)
Record Package : Type := mkPackage {
  project : string;
  bucket : string;
  testsFileLocation : string;
  testsCsvExtension : string;
}.

(** What lies outside the program: the environment and the object store. The
    answers already depend on the [ctx] handed to each call. [Close] on the
    client and on the reader has no effect the function can observe. *)
Record World : Type := mkWorld {
  Client : Type;
  ObjectReader : Type;
  Getenv : string -> string;
  storage_NewClient : list ClientOption -> error + Client;
  (** [client.Bucket(b).Object(o).NewReader(ctx)] *)
  NewReader : Client -> string -> string -> error + ObjectReader;
  io_ReadAll : ObjectReader -> error + string;
}.

(** What a call of [ReadTestsToRun] ends in: its two results, or a panic.
    [StepBound] stands for a CSV read cut off by the bound of [csvRun]; it
    never occurs. *)
Inductive outcome : Type :=
  | Returned (n : Z) (err : option error)
  | Panicked (p : panic)
  | StepBound.

(** [len(tests)] as a Go [int]. *)
Definition len {A : Type} (l : list A) : Z := Z.of_nat (length l).

(** [fmt.Sprintf("%s-%s-%s.%s", testsFileLocation, suite, cloud, testsCsvExtension)] *)
Definition objectName (pkg : Package) (cloud suite : string) : string :=
  testsFileLocation pkg +:+ "-" +:+ suite +:+ "-" +:+ cloud +:+ "." +:+ testsCsvExtension pkg.

(** consumer.go:47-53. The message printed when the variable is not set goes
    to standard output and is not part of the model. *)
Definition clientOptions (pkg : Package) (w : World) : list ClientOption :=
  let options := [WithScopes [ScopeReadOnly]; WithQuotaProject (project pkg)] in
  let cj := Getenv w "GOOGLE_EPHEMERAL_CREDENTIALS" in
  if negb (String.length cj =? 0)%nat then options ++ [WithCredentialsJSON cj]
  else options.

(** consumer.go:54-70: the body of the object, or the error returned. *)
Definition fetchBody (pkg : Package) (w : World) (cloud suite : string) : error + string :=
  match storage_NewClient w (clientOptions pkg w) with
  | inl err => inl (AssertionErrorWrapped err "connection to GCS failed")
  | inr client =>
      let object := objectName pkg cloud suite in
      match NewReader w client (bucket pkg) object with
      | inl err =>
          inl (AssertionErrorWrapped err
                 ("failed to get the object " +:+ object +:+ " in bucket " +:+ bucket pkg))
      | inr r =>
          match io_ReadAll w r with
          | inl err => inl (AssertionErrorWrapped err "failed to read CSV from GCS")
          | inr body => inr body
          end
      end
  end.

(** [ReadTestsToRun] (consumer.go:44-103): the final content of the array
    behind [tests], and the outcome of the call. *)
Definition ReadTestsToRun (pkg : Package) (w : World)
    (tests : list TestSpec) (cloud suite : string) : list TestSpec * outcome :=
  match fetchBody pkg w cloud suite with
  | inl err => (tests, Returned (len tests) (Some err))
  | inr body =>
      match csv_ReadAll body with
      | None => (tests, StepBound)
      | Some (inl e) =>
          (tests, Returned (len tests)
                    (Some (AssertionErrorWrapped (CsvParseError e) "failed to read CSV data")))
      | Some (inr data) =>
          if (len data <=? 1) then
            (* the file has just the header *)
            (tests, Returned (len tests) None)
          else
            match loadRows ∅ (tail data) with
            | Panic p => (tests, Panicked p)
            | Val testNamesToRun =>
                let '(tests', selectedTestsCount) := selectTests testNamesToRun suite tests in
                (tests', Returned selectedTestsCount None)
            end
      end
  end.

(** ** Vocabulary of the specification

    The definitions of this part follow the words of the specification, not
    the code; the theorems compare them with the code. *)

(** "the candidate's opt-out set is initialized AND contains the given suite
    identifier" *)
Definition optedOut (t : TestSpec) (suite : string) : Prop :=
  ∃ s : gset string, TestSelectionOptOutSuites t = Some s ∧ suite ∈ s.

(** Rule 4 of the selector: "found, no opt-out, no existing skip, and the
    record's selected flag is false". *)
Definition historicallyDeselected
    (tbl : gmap string testInfo) (suite : string) (t : TestSpec) : Prop :=
  (∃ info, tbl !! Name t = Some info ∧ selected info = false)
  ∧ ¬ optedOut t suite
  ∧ Skip t = "".

(** The five-way classification of section 4.2, in its order of precedence. *)
Inductive rule : Type :=
  | OptOutOverride
  | NoLookup
  | ExistingSkipGuard
  | HistoricalSelection
  | Otherwise.

Global Instance rule_eq_dec : EqDecision rule.
Proof. solve_decision. Defined.

Definition spec_rule (tbl : gmap string testInfo) (suite : string) (t : TestSpec) : rule :=
  match TestSelectionOptOutSuites t with
  | Some s =>
      if bool_decide (suite ∈ s) then OptOutOverride
      else
        match tbl !! Name t with
        | None => NoLookup
        | Some info =>
            if negb (String.eqb (Skip t) "") then ExistingSkipGuard
            else if negb (selected info) then HistoricalSelection
            else Otherwise
        end
  | None =>
      match tbl !! Name t with
      | None => NoLookup
      | Some info =>
          if negb (String.eqb (Skip t) "") then ExistingSkipGuard
          else if negb (selected info) then HistoricalSelection
          else Otherwise
      end
  end.

(** The number of candidates a predicate on rules holds for. *)
Definition countRule (p : rule -> bool)
    (tbl : gmap string testInfo) (suite : string) (tests : list TestSpec) : Z :=
  len (List.filter (fun t => p (spec_rule tbl suite t)) tests).

(** "the count of candidates classified as not skipped by rules 1, 2, or 5
    (rule-3 candidates are excluded from both the skipped mutation and the
    runnable count)" *)
Definition spec_selectedCount
    (tbl : gmap string testInfo) (suite : string) (tests : list TestSpec) : Z :=
  countRule (fun r => bool_decide (r = OptOutOverride ∨ r = NoLookup ∨ r = Otherwise))
            tbl suite tests.

(** "the tabular payload is structurally malformed (row does not have
    exactly 4 columns)" *)
Definition spec_malformed (data : list (list string)) : Prop :=
  ∃ row, row ∈ data ∧ length row ≠ 4%nat.

(** The first four fields of a record, as the loader reads them. *)
Definition rowName (d : list string) : string := default "" (d !! 0%nat).

Definition rowInfo (d : list string) : testInfo :=
  {| selected := negb (String.eqb (default "" (d !! 1%nat)) "no");
     avgDurationInMillis := getDuration (default "" (d !! 2%nat));
     totalRuns := getTotalRuns (default "" (d !! 3%nat)) |}.

(** ** The pass of the selector, element by element *)

(** What the pass does to one candidate, and what it adds to the count. *)
Definition selectOne (tbl : gmap string testInfo) (suite : string) (t : TestSpec) : TestSpec :=
  if testShouldBeSkipped tbl t suite then markSkipped t else t.

Definition countOne (tbl : gmap string testInfo) (suite : string) (t : TestSpec) : Z :=
  if testShouldBeSkipped tbl t suite then 0 else 1.

Definition countAll (tbl : gmap string testInfo) (suite : string) (tests : list TestSpec) : Z :=
  foldr (fun t acc => countOne tbl suite t + acc) 0 tests.

(** ** Worlds to run the program in *)

(** A world in which the environment variable is not set and each of the three
    calls to the store either fails with the given error or succeeds;
    [read] is the result of draining the object. *)
Definition scriptedWorld (connect open : option error) (read : error + string) : World :=
  {| Client := unit;
     ObjectReader := unit;
     Getenv := fun _ => "";
     storage_NewClient := fun _ =>
       match connect with Some e => inl e | None => inr tt end;
     NewReader := fun _ _ _ =>
       match open with Some e => inl e | None => inr tt end;
     io_ReadAll := fun _ => read |}.

(** The world in which the object is there and holds [body]. *)
Definition servingWorld (body : string) : World :=
  scriptedWorld None None (inr body).

Definition examplePackage : Package :=
  {| project := "example-project";
     bucket := "example-bucket";
     testsFileLocation := "selected-tests";
     testsCsvExtension := "csv" |}.

(** Lines of text joined by \n, each line ended by it. *)
Definition unlines (ls : list string) : string :=
  foldr (fun l acc => l +:+ String newline acc) "" ls.

(** ** Measures and invariants of the CSV reader *)

(** A bound on the number of steps left: three per byte not yet consumed. *)
Definition csvPotential (s : csvState) : nat :=
  match s with
  | AtRecord input _ _ =>
      match input with
      | EmptyString => 1
      | _ => 3 * String.length input + 3
      end
  | AtField line input _ _ _ => 3 * (String.length line + String.length input) + 2
  | InQuotes line input _ _ _ _ => 3 * (String.length line + String.length input) + 2
  | Finished _ => 0
  end%nat.

(** Inside a record, the current line ends with \n unless it is the last one. *)
Definition csvLineInv (s : csvState) : Prop :=
  match s with
  | AtField line input _ _ _ => input = EmptyString ∨ lengthNL line = 1%nat
  | InQuotes line input _ _ _ _ => input = EmptyString ∨ lengthNL line = 1%nat
  | _ => True
  end.

(** The records read so far all have [fpr] fields, and [fpr] is still 0 only
    before the first record. *)
Definition uniformRecords (fpr : nat) (records : list (list string)) : Prop :=
  Forall (fun r => length r = fpr) records ∧ (fpr = 0%nat → records = []).

Definition csvUniform (s : csvState) : Prop :=
  match s with
  | AtRecord _ fpr records => uniformRecords fpr records
  | AtField _ _ _ fpr records => uniformRecords fpr records
  | InQuotes _ _ _ _ fpr records => uniformRecords fpr records
  | Finished (inr data) => ∃ k, Forall (fun r => length r = k) data
  | Finished (inl _) => True
  end.

(** ** Vocabulary for the loader *)

(** The assignment of consumer.go:87-91 for a record with its four fields. *)
Definition insertRow (m : gmap string testInfo) (d : list string) : gmap string testInfo :=
  <[rowName d := rowInfo d]> m.

(** The cell starts with a minus sign. *)
Definition isNegative (cell : string) : bool :=
  match cell with
  | EmptyString => false
  | String c _ => Ascii.eqb c "-"
  end.

(** The bound of [int64] on the side of the sign of the cell. *)
Definition boundOnSide (cell : string) : Z :=
  if isNegative cell then MinInt64 else MaxInt64.

(** The kind of the error [ParseInt] reports for a cell, if any. *)
Definition parseFailure (cell : string) : option numError := (ParseInt cell).2.

Definition isDigit (c : ascii) : bool := (48 <=? byteZ c) && (byteZ c <=? 57).

(** The cell without its sign. *)
Definition unsignedPart (cell : string) : string :=
  match cell with
  | EmptyString => EmptyString
  | String c rest =>
      if Ascii.eqb c "+" then rest else if Ascii.eqb c "-" then rest else cell
  end.

Fixpoint allDigits (s : string) : bool :=
  match s with
  | EmptyString => true
  | String c s' => isDigit c && allDigits s'
  end.

(** Cells that are not decimal numbers: nothing after the sign, or a byte that
    is not a decimal digit after at most 19 digits. *)
Definition notANumber (cell : string) : Prop :=
  unsignedPart cell = EmptyString
  ∨ ∃ (p : string) (c : ascii) (rest : string),
      unsignedPart cell = p +:+ String c rest
      ∧ allDigits p = true
      ∧ (String.length p ≤ 19)%nat
      ∧ isDigit c = false.

(** The errors [ReadTestsToRun] can return, each with the step that fails and
    the steps that succeed before it. *)
Inductive fatalError (pkg : Package) (w : World) (cloud suite : string) : error → Prop :=
  | connectionFailure (e : error) :
      storage_NewClient w (clientOptions pkg w) = inl e →
      fatalError pkg w cloud suite (AssertionErrorWrapped e "connection to GCS failed")
  | objectFailure (client : Client w) (e : error) :
      storage_NewClient w (clientOptions pkg w) = inr client →
      NewReader w client (bucket pkg) (objectName pkg cloud suite) = inl e →
      fatalError pkg w cloud suite
        (AssertionErrorWrapped e
           ("failed to get the object " +:+ objectName pkg cloud suite
            +:+ " in bucket " +:+ bucket pkg))
  | readFailure (client : Client w) (r : ObjectReader w) (e : error) :
      storage_NewClient w (clientOptions pkg w) = inr client →
      NewReader w client (bucket pkg) (objectName pkg cloud suite) = inr r →
      io_ReadAll w r = inl e →
      fatalError pkg w cloud suite (AssertionErrorWrapped e "failed to read CSV from GCS")
  | csvFailure (client : Client w) (r : ObjectReader w) (body : string) (e : csvError) :
      storage_NewClient w (clientOptions pkg w) = inr client →
      NewReader w client (bucket pkg) (objectName pkg cloud suite) = inr r →
      io_ReadAll w r = inr body →
      csv_ReadAll body = Some (inl e) →
      fatalError pkg w cloud suite
        (AssertionErrorWrapped (CsvParseError e) "failed to read CSV data").

(** ** Vocabulary for further properties of the pass *)

(** The number of positions at which two lists of candidates differ. *)
Definition changedCount (before after : list TestSpec) : Z :=
  len (List.filter (fun p : TestSpec * TestSpec => negb (bool_decide (p.1 = p.2)))
                   (zip before after)).

(** ** Vocabulary for decimal cells *)

(** The value of a string of decimal digits read after the digits of [n]. *)
Fixpoint decimalValue_from (s : string) (n : Z) : Z :=
  match s with
  | EmptyString => n
  | String c s' => decimalValue_from s' (n * 10 + (byteZ c - 48))
  end.

(** The number a string of decimal digits denotes. *)
Definition decimalValue (s : string) : Z := decimalValue_from s 0.

(** ** Vocabulary for plain payloads *)

(** A field without comma, quote, \n or \r: one that is written to a CSV file
    as it is. *)
Fixpoint plainField (f : string) : bool :=
  match f with
  | EmptyString => true
  | String c f' =>
      negb (Ascii.eqb c comma) && negb (Ascii.eqb c dquote)
      && negb (Ascii.eqb c newline) && negb (Ascii.eqb c carriageReturn)
      && plainField f'
  end.

(** The fields of a record joined by commas. *)
Fixpoint joinFields (fields : list string) : string :=
  match fields with
  | [] => EmptyString
  | f :: rest =>
      match rest with
      | [] => f
      | _ => f +:+ String comma (joinFields rest)
      end
  end.

(** A record whose fields are plain and which is not written as an empty
    line. *)
Definition plainRecord (r : list string) : Prop :=
  Forall (fun f => plainField f = true) r ∧ joinFields r ≠ EmptyString.

(** The payload that holds [rows], one line each, every line ended by \n. *)
Definition renderRows (rows : list (list string)) : string :=
  unlines (joinFields <$> rows).

(** The reader, started in [s], returns [r]. *)
Definition csvResult (s : csvState) (r : csvError + list (list string)) : Prop :=
  ∃ fuel, csvRun fuel s = Some r.

(** ** The selector: one pass is a map *)

Section Selector.
Variable tbl : gmap string testInfo.
Variable suite : string.

Lemma selectLoop_from (todo pre : list TestSpec) (c : Z) :
  foldl (selectStep tbl suite) (pre ++ todo, c) (seq (length pre) (length todo))
  = (pre ++ map (selectOne tbl suite) todo, c + countAll tbl suite todo).
Proof.
  revert pre c. induction todo as [|t todo IH]; intros pre c; simpl.
  - f_equal; lia.
  - unfold selectStep at 2. simpl.
    rewrite list_lookup_middle by reflexivity.
    unfold selectOne at 1, countOne at 1.
    destruct (testShouldBeSkipped tbl t suite) eqn:Hs.
    + rewrite insert_app_r_alt, Nat.sub_diag by lia. simpl.
      specialize (IH (pre ++ [markSkipped t]) c).
      rewrite length_app, Nat.add_1_r, <- !app_assoc in IH. simpl in IH.
      rewrite IH. f_equal; lia.
    + specialize (IH (pre ++ [t]) (c + 1)).
      rewrite length_app, Nat.add_1_r, <- !app_assoc in IH. simpl in IH.
      rewrite IH. f_equal; lia.
Qed.

Lemma selectTests_map (tests : list TestSpec) :
  selectTests tbl suite tests = (map (selectOne tbl suite) tests, countAll tbl suite tests).
Proof.
  unfold selectTests.
  pose proof (selectLoop_from tests [] 0) as H. simpl in H.
  rewrite H. reflexivity.
Qed.

Lemma countAll_app (l1 l2 : list TestSpec) :
  countAll tbl suite (l1 ++ l2) = countAll tbl suite l1 + countAll tbl suite l2.
Proof. induction l1 as [|t l1 IH]; simpl; lia. Qed.

(** The pass is compositional: a candidate in the middle of the list gets
    its own verdict, and the rest of the list is treated as if it were not
    there. *)
Lemma selectTests_middle (l1 l2 : list TestSpec) (t : TestSpec) :
  selectTests tbl suite (l1 ++ t :: l2)
  = ((selectTests tbl suite l1).1 ++ selectOne tbl suite t :: (selectTests tbl suite l2).1,
     (selectTests tbl suite l1).2 + countOne tbl suite t + (selectTests tbl suite l2).2).
Proof.
  rewrite !selectTests_map. simpl.
  rewrite map_app, countAll_app. simpl. f_equal; lia.
Qed.

Lemma countAll_bounds (tests : list TestSpec) :
  0 <= countAll tbl suite tests <= len tests.
Proof.
  unfold len. induction tests as [|t tests IH]; simpl length; simpl countAll.
  - lia.
  - unfold countOne. destruct (testShouldBeSkipped tbl t suite); lia.
Qed.

Lemma optedOut_true (t : TestSpec) :
  optedOut t suite ↔
  IsInitialized (TestSelectionOptOutSuites t)
    && Contains (TestSelectionOptOutSuites t) suite = true.
Proof.
  unfold optedOut, IsInitialized, Contains.
  destruct (TestSelectionOptOutSuites t) as [s|]; simpl.
  - rewrite bool_decide_eq_true. split.
    + intros (s' & Hs & Hin). by simplify_eq.
    + intros Hin. by exists s.
  - split; [intros (s' & Hs & _); discriminate | discriminate].
Qed.

Lemma skipped_iff (t : TestSpec) :
  testShouldBeSkipped tbl t suite = true ↔ historicallyDeselected tbl suite t.
Proof.
  unfold testShouldBeSkipped, historicallyDeselected.
  destruct (IsInitialized _ && Contains _ _) eqn:Ho.
  - apply optedOut_true in Ho. split; [discriminate | tauto].
  - assert (¬ optedOut t suite) as Hn.
    { rewrite optedOut_true, Ho. discriminate. }
    destruct (tbl !! Name t) as [info|].
    + rewrite andb_true_iff, String.eqb_eq, negb_true_iff. split.
      * intros [Hs Hsel]. eauto.
      * intros ((info' & Hi & Hsel) & _ & Hs). by simplify_eq.
    + split; [discriminate | intros ((info' & Hi & _) & _); discriminate].
Qed.

Lemma not_skipped_iff (t : TestSpec) :
  testShouldBeSkipped tbl t suite = false ↔ ¬ historicallyDeselected tbl suite t.
Proof. rewrite <- skipped_iff. destruct (testShouldBeSkipped tbl t suite); naive_solver. Qed.

Lemma skipped_rule (t : TestSpec) :
  testShouldBeSkipped tbl t suite
  = bool_decide (spec_rule tbl suite t = HistoricalSelection).
Proof.
  unfold testShouldBeSkipped, spec_rule, IsInitialized, Contains.
  destruct (TestSelectionOptOutSuites t) as [s|]; simpl.
  - destruct (bool_decide (suite ∈ s)); [done|].
    destruct (tbl !! Name t) as [info|]; [|done].
    destruct (String.eqb (Skip t) ""), (selected info); done.
  - destruct (tbl !! Name t) as [info|]; [|done].
    destruct (String.eqb (Skip t) ""), (selected info); done.
Qed.

(** A marked candidate is not marked again, an unmarked one is judged as
    before. *)
Lemma selectTests_twice (tests : list TestSpec) :
  (selectTests tbl suite (selectTests tbl suite tests).1).1
  = (selectTests tbl suite tests).1.
Proof.
  rewrite !selectTests_map. simpl. rewrite map_map.
  apply List.map_ext. intros t. unfold selectOne.
  destruct (testShouldBeSkipped tbl t suite) eqn:Hs.
  - assert (testShouldBeSkipped tbl (markSkipped t) suite = false) as Hf.
    { apply not_skipped_iff. intros (_ & _ & Hm). discriminate. }
    by rewrite Hf.
  - by rewrite Hs.
Qed.

End Selector.

(** ** The selector: the claims *)

(** The call as a whole, once the table is loaded, is the pass of the
    selector over [tests]. *)
Lemma ReadTestsToRun_loaded pkg w tests cloud suite body data tbl :
  fetchBody pkg w cloud suite = inr body →
  csv_ReadAll body = Some (inr data) →
  1 < len data →
  loadRows ∅ (tail data) = Val tbl →
  ReadTestsToRun pkg w tests cloud suite
  = ((selectTests tbl suite tests).1, Returned (selectTests tbl suite tests).2 None).
Proof.
  intros Hf Hc Hl Ht. unfold ReadTestsToRun. rewrite Hf, Hc.
  destruct (Z.leb_spec (len data) 1) as [?|_]; [lia|].
  rewrite Ht. by destruct (selectTests tbl suite tests).
Qed.

(** C1 as stated fails: a candidate that carries a skip of its own and has a
    record in the table is left as it is, but the call counts it. The
    specification's count for this input is 0, the call returns 1. *)
Lemma existing_skip_is_counted :
  let tests := [mkTestSpec "A" "flaky" "skipped by hand" None] in
  let body := unlines ["name,selected,avg_duration,total_runs"; "A,no,100,5"] in
  let tbl : gmap string testInfo := {["A" := mkTestInfo false 100 5]} in
  Skip (mkTestSpec "A" "flaky" "skipped by hand" None) ≠ ""
  ∧ csv_ReadAll body
    = Some (inr [["name"; "selected"; "avg_duration"; "total_runs"]; ["A"; "no"; "100"; "5"]])
  ∧ loadRows ∅ [["A"; "no"; "100"; "5"]] = Val tbl
  ∧ spec_selectedCount tbl "nightly" tests = 0
  ∧ ReadTestsToRun examplePackage (servingWorld body) tests "gce" "nightly"
    = (tests, Returned 1 None).
Proof. repeat split; [discriminate | vm_compute; reflexivity ..]. Qed.

(** C1, amended. A candidate with a non-empty skip of its own is never
    overwritten, and it IS counted: it adds one to the number returned. The
    number returned is the specification's count (rules 1, 2 and 5) plus the
    number of candidates under the existing-skip guard (rule 3). *)
Theorem existing_skip_kept_and_counted
    (tbl : gmap string testInfo) (suite : string) (l1 l2 : list TestSpec) (t : TestSpec) :
  Skip t ≠ "" →
  selectTests tbl suite (l1 ++ t :: l2)
  = ((selectTests tbl suite l1).1 ++ t :: (selectTests tbl suite l2).1,
     (selectTests tbl suite l1).2 + 1 + (selectTests tbl suite l2).2)
  ∧ ∀ tests : list TestSpec,
      (selectTests tbl suite tests).2
      = spec_selectedCount tbl suite tests
        + countRule (fun r => bool_decide (r = ExistingSkipGuard)) tbl suite tests.
Proof.
  intros Hskip. split.
  - rewrite selectTests_middle.
    assert (testShouldBeSkipped tbl t suite = false) as Hf.
    { apply not_skipped_iff. intros (_ & _ & Hs). done. }
    unfold selectOne, countOne. by rewrite Hf.
  - intros tests. rewrite selectTests_map. simpl.
    unfold spec_selectedCount, countRule, len.
    induction tests as [|x tests IH]; [done|].
    simpl. unfold countOne at 1. rewrite skipped_rule, IH.
    destruct (spec_rule tbl suite x); simpl; lia.
Qed.

Lemma existing_skip_kept_and_counted_witness :
  let t := mkTestSpec "A" "flaky" "skipped by hand" None in
  let tbl : gmap string testInfo := {["A" := mkTestInfo false 100 5]} in
  Skip t ≠ ""
  ∧ selectTests tbl "nightly" ([] ++ t :: []) = ([] ++ t :: [], 0 + 1 + 0).
Proof.
  split; [discriminate|].
  apply (existing_skip_kept_and_counted
           {["A" := mkTestInfo false 100 5]} "nightly" [] []
           (mkTestSpec "A" "flaky" "skipped by hand" None)).
  discriminate.
Defined.

(** C2. A candidate whose opt-out set is initialised and contains the suite is
    never marked skipped and is counted, whatever the statistics table holds. *)
Theorem optOut_never_skipped_and_counted
    (tbl : gmap string testInfo) (suite : string) (l1 l2 : list TestSpec) (t : TestSpec) :
  optedOut t suite →
  testShouldBeSkipped tbl t suite = false
  ∧ selectTests tbl suite (l1 ++ t :: l2)
    = ((selectTests tbl suite l1).1 ++ t :: (selectTests tbl suite l2).1,
       (selectTests tbl suite l1).2 + 1 + (selectTests tbl suite l2).2).
Proof.
  intros Ho.
  assert (testShouldBeSkipped tbl t suite = false) as Hf.
  { apply not_skipped_iff. intros (_ & Hn & _). done. }
  split; [done|].
  rewrite selectTests_middle. unfold selectOne, countOne. by rewrite Hf.
Qed.

Lemma optOut_never_skipped_and_counted_witness :
  let t := mkTestSpec "A" "" "" (Some {["nightly"]}) in
  let tbl : gmap string testInfo := {["A" := mkTestInfo false 100 5]} in
  optedOut t "nightly"
  ∧ testShouldBeSkipped tbl t "nightly" = false
  ∧ selectTests tbl "nightly" ([] ++ t :: []) = ([] ++ t :: [], 0 + 1 + 0).
Proof.
  assert (optedOut (mkTestSpec "A" "" "" (Some {["nightly"]})) "nightly") as Ho.
  { exists {["nightly"]}. split; [reflexivity|]. apply elem_of_singleton_2. reflexivity. }
  split; [exact Ho|].
  exact (optOut_never_skipped_and_counted
           {["A" := mkTestInfo false 100 5]} "nightly" [] []
           (mkTestSpec "A" "" "" (Some {["nightly"]})) Ho).
Defined.

(** C3. A candidate whose name has no entry in the statistics table is never
    marked skipped and is counted (opted out or not). *)
Theorem absent_never_skipped_and_counted
    (tbl : gmap string testInfo) (suite : string) (l1 l2 : list TestSpec) (t : TestSpec) :
  tbl !! Name t = None →
  testShouldBeSkipped tbl t suite = false
  ∧ selectTests tbl suite (l1 ++ t :: l2)
    = ((selectTests tbl suite l1).1 ++ t :: (selectTests tbl suite l2).1,
       (selectTests tbl suite l1).2 + 1 + (selectTests tbl suite l2).2).
Proof.
  intros Hn.
  assert (testShouldBeSkipped tbl t suite = false) as Hf.
  { apply not_skipped_iff. intros ((info & Hi & _) & _). congruence. }
  split; [done|].
  rewrite selectTests_middle. unfold selectOne, countOne. by rewrite Hf.
Qed.

Lemma absent_never_skipped_and_counted_witness :
  let t := mkTestSpec "B" "" "" None in
  let tbl : gmap string testInfo := {["A" := mkTestInfo false 100 5]} in
  tbl !! Name t = None
  ∧ testShouldBeSkipped tbl t "nightly" = false
  ∧ selectTests tbl "nightly" ([] ++ t :: []) = ([] ++ t :: [], 0 + 1 + 0).
Proof.
  split; [reflexivity|].
  apply (absent_never_skipped_and_counted
           {["A" := mkTestInfo false 100 5]} "nightly" [] [] (mkTestSpec "B" "" "" None)).
  reflexivity.
Defined.

(** C4. A candidate with a record whose selected flag is false, no opt-out for
    the suite and an empty skip gets the fixed marker and the fixed details and
    is not counted; every other candidate is left exactly as it was (and is
    counted). *)
Theorem deselected_marked_others_untouched
    (tbl : gmap string testInfo) (suite : string) (l1 l2 : list TestSpec) (t : TestSpec) :
  (historicallyDeselected tbl suite t →
     selectTests tbl suite (l1 ++ t :: l2)
     = ((selectTests tbl suite l1).1
          ++ {| Name := Name t;
                Skip := "test selector";
                SkipDetails := "test skipped because it is stable and selective-tests is set.";
                TestSelectionOptOutSuites := TestSelectionOptOutSuites t |}
          :: (selectTests tbl suite l2).1,
        (selectTests tbl suite l1).2 + (selectTests tbl suite l2).2)
     ∧ Skip t ≠ "test selector")
  ∧ (¬ historicallyDeselected tbl suite t →
     selectTests tbl suite (l1 ++ t :: l2)
     = ((selectTests tbl suite l1).1 ++ t :: (selectTests tbl suite l2).1,
        (selectTests tbl suite l1).2 + 1 + (selectTests tbl suite l2).2)).
Proof.
  split.
  - intros Hd. split.
    + rewrite selectTests_middle. unfold selectOne, countOne.
      apply skipped_iff in Hd. rewrite Hd. unfold markSkipped. f_equal; lia.
    + destruct Hd as (_ & _ & Hs). rewrite Hs. discriminate.
  - intros Hn. apply not_skipped_iff in Hn.
    rewrite selectTests_middle. unfold selectOne, countOne. by rewrite Hn.
Qed.

Lemma deselected_marked_others_untouched_witness :
  let a := mkTestSpec "A" "" "" (Some ∅) in
  let b := mkTestSpec "B" "" "" None in
  let tbl : gmap string testInfo := {["A" := mkTestInfo false 100 5]} in
  (historicallyDeselected tbl "acceptance" a
   ∧ selectTests tbl "acceptance" ([] ++ a :: [b])
     = ([] ++ mkTestSpec "A" "test selector"
                 "test skipped because it is stable and selective-tests is set." (Some ∅)
            :: [b], 0 + 1))
  ∧ (¬ historicallyDeselected tbl "acceptance" b
     ∧ selectTests tbl "acceptance" ([a] ++ b :: [])
       = ([markSkipped a] ++ b :: [], 0 + 1 + 0)).
Proof.
  assert (historicallyDeselected {["A" := mkTestInfo false 100 5]} "acceptance"
            (mkTestSpec "A" "" "" (Some ∅))) as Ha.
  { apply skipped_iff. reflexivity. }
  assert (¬ historicallyDeselected {["A" := mkTestInfo false 100 5]} "acceptance"
            (mkTestSpec "B" "" "" None)) as Hb.
  { apply not_skipped_iff. reflexivity. }
  split; (split; [assumption|]).
  - exact (proj1 (proj1 (deselected_marked_others_untouched
             {["A" := mkTestInfo false 100 5]} "acceptance" []
             [mkTestSpec "B" "" "" None] (mkTestSpec "A" "" "" (Some ∅))) Ha)).
  - exact (proj2 (deselected_marked_others_untouched
             {["A" := mkTestInfo false 100 5]} "acceptance"
             [mkTestSpec "A" "" "" (Some ∅)] [] (mkTestSpec "B" "" "" None)) Hb).
Defined.

(** C9. The pass is idempotent on the state of the candidates: a second pass
    with the same table over the list the first pass left changes no
    candidate; and so a second call in the same world changes no candidate
    either. *)
Theorem selectTests_idempotent
    (tbl : gmap string testInfo) (suite : string) (tests : list TestSpec) :
  (selectTests tbl suite (selectTests tbl suite tests).1).1
  = (selectTests tbl suite tests).1
  ∧ ∀ (pkg : Package) (w : World) (cloud : string),
      (ReadTestsToRun pkg w (ReadTestsToRun pkg w tests cloud suite).1 cloud suite).1
      = (ReadTestsToRun pkg w tests cloud suite).1.
Proof.
  split; [apply selectTests_twice|].
  intros pkg w cloud. unfold ReadTestsToRun.
  destruct (fetchBody pkg w cloud suite) as [e|body]; [done|].
  destruct (csv_ReadAll body) as [[e|data]|]; [done| |done].
  destruct (len data <=? 1); [done|].
  destruct (loadRows ∅ (tail data)) as [tbl'|p]; [|done].
  pose proof (selectTests_twice tbl' suite tests) as Hi.
  destruct (selectTests tbl' suite tests) as [t1 c1]. simpl in *.
  by destruct (selectTests tbl' suite t1) as [t2 c2].
Qed.

(** ** Strings *)

Lemma append_cons (a : ascii) (s t : string) :
  String a s +:+ t = String a (s +:+ t).
Proof. reflexivity. Qed.

Lemma length_append (s1 s2 : string) :
  String.length (s1 +:+ s2) = (String.length s1 + String.length s2)%nat.
Proof.
  induction s1 as [|a s1 IH]; [done|].
  rewrite append_cons. simpl. by rewrite IH.
Qed.

Lemma cut_spec (c : ascii) (s pre post : string) :
  cut c s = Some (pre, post) → s = pre +:+ String c post.
Proof.
  revert pre. induction s as [|a s IH]; intros pre; simpl; [done|].
  destruct (Ascii.eqb_spec a c) as [->|Hne].
  - intros [= <- <-]. done.
  - destruct (cut c s) as [[p q]|]; [|done].
    intros [= <- <-]. rewrite append_cons. f_equal. by apply IH.
Qed.

Lemma cut_length (c : ascii) (s pre post : string) :
  cut c s = Some (pre, post) →
  String.length s = (String.length pre + 1 + String.length post)%nat.
Proof.
  intros H. apply cut_spec in H. subst s. rewrite length_append. simpl. lia.
Qed.

Lemma unsnoc_None (s : string) : unsnoc s = None → s = EmptyString.
Proof. destruct s as [|a s]; [done|]. simpl. by destruct (unsnoc s) as [[i z]|]. Qed.

Lemma unsnoc_spec (s init : string) (z : ascii) :
  unsnoc s = Some (init, z) → s = init +:+ String z EmptyString.
Proof.
  revert init. induction s as [|a s IH]; intros init; simpl; [done|].
  destruct (unsnoc s) as [[i y]|] eqn:Hu.
  - intros [= <- <-]. rewrite append_cons. f_equal. by apply IH.
  - intros [= <- <-]. apply unsnoc_None in Hu. by subst s.
Qed.

Lemma unsnoc_snoc (s : string) (z : ascii) :
  unsnoc (s +:+ String z EmptyString) = Some (s, z).
Proof.
  induction s as [|a s IH]; [done|].
  rewrite append_cons. simpl. by rewrite IH.
Qed.

Lemma lengthNL_le (s : string) : (lengthNL s ≤ 1 ∧ lengthNL s ≤ String.length s)%nat.
Proof.
  unfold lengthNL. destruct (unsnoc s) as [[i z]|] eqn:Hu; [|lia].
  apply unsnoc_spec in Hu. subst s. rewrite length_append. simpl.
  destruct (Ascii.eqb z newline); lia.
Qed.

(** A line that ends with \n still does after a prefix that ends with another
    byte has been cut off. *)
Lemma lengthNL_suffix (pre post : string) (c : ascii) :
  c ≠ newline →
  lengthNL (pre +:+ String c post) = 1%nat → lengthNL post = 1%nat.
Proof.
  intros Hc. unfold lengthNL.
  destruct (unsnoc post) as [[i z]|] eqn:Hu.
  - apply unsnoc_spec in Hu. subst post.
    replace (pre +:+ String c (i +:+ String z EmptyString))
      with ((pre +:+ String c i) +:+ String z EmptyString).
    + by rewrite unsnoc_snoc.
    + clear. induction pre as [|a pre IH]; [done|].
      rewrite !append_cons. by rewrite IH.
  - apply unsnoc_None in Hu. subst post. rewrite unsnoc_snoc.
    destruct (Ascii.eqb_spec c newline); [done | discriminate].
Qed.

Lemma lengthNL_tail1 (line : string) (c : ascii) :
  c ≠ newline → byteIs c (nextByte line) = true →
  lengthNL line = 1%nat → lengthNL (tail1 line) = 1%nat.
Proof.
  intros Hc Hb. destruct line as [|a line]; [done|]. simpl in Hb.
  apply Ascii.eqb_eq in Hb. subst a. simpl tail1.
  apply (lengthNL_suffix EmptyString line c Hc).
Qed.

Lemma tail1_length (line : string) (c : ascii) :
  byteIs c (nextByte line) = true →
  String.length line = S (String.length (tail1 line)).
Proof. destruct line; [done|]. done. Qed.

Lemma dropTrailingCR_length (s : string) :
  (String.length (dropTrailingCR s) ≤ String.length s)%nat.
Proof.
  unfold dropTrailingCR. destruct (unsnoc s) as [[i z]|] eqn:Hu; [|done].
  destruct (Ascii.eqb z carriageReturn); [|done].
  apply unsnoc_spec in Hu. subst s. rewrite length_append. lia.
Qed.

Lemma normalizeCRLF_length (s : string) :
  (String.length (normalizeCRLF s) ≤ String.length s)%nat.
Proof.
  unfold normalizeCRLF. destruct (unsnoc s) as [[i z]|] eqn:Hu; [|done].
  destruct (Ascii.eqb z newline); [|done].
  destruct (unsnoc i) as [[i' y]|] eqn:Hu'; [|done].
  destruct (Ascii.eqb y carriageReturn); [|done].
  apply unsnoc_spec in Hu, Hu'. subst s i. rewrite !length_append. simpl. lia.
Qed.

Lemma normalizeCRLF_NL (s : string) :
  lengthNL (normalizeCRLF (s +:+ String newline EmptyString)) = 1%nat.
Proof.
  unfold normalizeCRLF. rewrite unsnoc_snoc. simpl.
  destruct (unsnoc s) as [[i' y]|] eqn:Hu'.
  - destruct (Ascii.eqb y carriageReturn).
    + unfold lengthNL. by rewrite unsnoc_snoc.
    + unfold lengthNL. by rewrite unsnoc_snoc.
  - unfold lengthNL. by rewrite unsnoc_snoc.
Qed.

(** [readLine] never gives back more than it was given; before the end of the
    input it consumes at least one byte, and the line it returns ends with \n
    unless the input is used up. *)
Lemma readLine_spec (input line rest : string) (eof : bool) :
  readLine input = (line, rest, eof) →
  (String.length line + String.length rest ≤ String.length input)%nat
  ∧ (eof = true → input = EmptyString)
  ∧ (eof = false → (String.length rest < String.length input)%nat)
  ∧ (rest = EmptyString ∨ lengthNL line = 1%nat).
Proof.
  unfold readLine. destruct (cut newline input) as [[pre post]|] eqn:Hc.
  - intros [= <- <- <-]. pose proof (cut_length _ _ _ _ Hc) as Hl.
    pose proof (normalizeCRLF_length (pre +:+ String newline EmptyString)) as Hn.
    rewrite length_append in Hn. simpl in Hn.
    repeat split; [lia | done | lia |].
    right. apply normalizeCRLF_NL.
  - destruct input as [|a input].
    + intros [= <- <- <-]. simpl. repeat split; [lia | done | by left].
    + intros [= <- <- <-].
      pose proof (normalizeCRLF_length (dropTrailingCR (String a input))) as Hn.
      pose proof (dropTrailingCR_length (String a input)) as Hd.
      simpl String.length in *. repeat split; [lia | done | lia | by left].
Qed.

(** ** The CSV reader terminates within its bound *)

Lemma potential_AtRecord (input : string) (fpr : nat) (records : list (list string)) :
  (1 ≤ csvPotential (AtRecord input fpr records) ≤ 3 * String.length input + 3)%nat
  ∧ (input = EmptyString → csvPotential (AtRecord input fpr records) = 1%nat)
  ∧ ((0 < String.length input)%nat →
     csvPotential (AtRecord input fpr records) = (3 * String.length input + 3)%nat).
Proof.
  destruct input as [|a input]; simpl; repeat split; intros; try lia; done.
Qed.

Lemma potential_endRecord (dst : list string) (line input : string)
    (fpr : nat) (records : list (list string)) :
  input = EmptyString ∨ (1 ≤ String.length line)%nat →
  (csvPotential (endRecord dst input fpr records)
   < 3 * (String.length line + String.length input) + 2)%nat.
Proof.
  intros Hinv.
  assert (csvPotential (endRecord dst input fpr records)
          ≤ csvPotential (AtRecord input 0 []))%nat as Hle.
  { unfold endRecord. destruct (0 <? fpr)%nat; [|done].
    destruct (negb _); [simpl; lia | done]. }
  destruct (potential_AtRecord input 0 []) as (Hb & Hnil & _).
  destruct Hinv as [->|Hl]; [specialize (Hnil eq_refl)|]; lia.
Qed.

Lemma csvLineInv_endRecord (dst : list string) (input : string)
    (fpr : nat) (records : list (list string)) :
  csvLineInv (endRecord dst input fpr records).
Proof.
  unfold endRecord. destruct (0 <? fpr)%nat; [|done]. by destruct (negb _).
Qed.

Lemma newline_not_dquote : dquote ≠ newline.
Proof. discriminate. Qed.

Lemma newline_not_comma : comma ≠ newline.
Proof. discriminate. Qed.

(** Every step keeps the line invariant and uses up some of the potential. *)
Lemma csvStep_decreases (s : csvState) :
  csvLineInv s → (∀ r, s ≠ Finished r) →
  csvLineInv (csvStep s) ∧ (csvPotential (csvStep s) < csvPotential s)%nat.
Proof.
  intros Hinv Hnf. destruct s as [input fpr recs|line input dst fpr recs
                                 |line input buf dst fpr recs|r].
  - (* AtRecord *)
    unfold csvStep. destruct (readLine input) as [[line rest] eof] eqn:Hr.
    apply readLine_spec in Hr as (Hlen & Heof & Hlt & Hnl).
    destruct (potential_AtRecord input fpr recs) as (Hb & _ & Hpos).
    destruct eof.
    + split; [done|]. simpl csvPotential at 1. lia.
    + specialize (Hlt eq_refl). rewrite Hpos by lia.
      destruct (String.length line =? lengthNL line)%nat.
      * split; [done|].
        destruct (potential_AtRecord rest fpr recs) as (Hb' & _ & _). lia.
      * split; [exact Hnl|]. simpl. lia.
  - (* AtField *)
    simpl in Hinv. unfold csvStep.
    destruct (byteIs dquote (nextByte line)) eqn:Hq.
    + split.
      * simpl. destruct Hinv as [?|Hl]; [by left|right].
        by apply (lengthNL_tail1 line dquote newline_not_dquote).
      * simpl. rewrite (tail1_length line dquote Hq). lia.
    + destruct (cut comma line) as [[f line']|] eqn:Hc.
      * destruct (bool_decide _); [split; [done | simpl; lia]|].
        split.
        -- simpl. destruct Hinv as [?|Hl]; [by left|right].
           apply cut_spec in Hc. subst line.
           by apply (lengthNL_suffix f line' comma newline_not_comma).
        -- simpl. apply cut_length in Hc. lia.
      * destruct (bool_decide _); [split; [done | simpl; lia]|].
        split; [apply csvLineInv_endRecord|].
        simpl csvPotential at 2. apply potential_endRecord.
        destruct Hinv as [?|Hl]; [by left|right].
        pose proof (lengthNL_le line). lia.
  - (* InQuotes *)
    simpl in Hinv. unfold csvStep.
    destruct (cut dquote line) as [[pre line']|] eqn:Hc.
    + pose proof (cut_length _ _ _ _ Hc) as Hlen.
      assert (input = EmptyString ∨ lengthNL line' = 1%nat) as Hinv'.
      { destruct Hinv as [?|Hl]; [by left|right].
        apply cut_spec in Hc. subst line.
        by apply (lengthNL_suffix pre line' dquote newline_not_dquote). }
      destruct (byteIs dquote (nextByte line')) eqn:Hq.
      { split.
        - simpl. destruct Hinv' as [?|Hl]; [by left|right].
          by apply (lengthNL_tail1 line' dquote newline_not_dquote).
        - simpl. rewrite (tail1_length line' dquote Hq) in Hlen. lia. }
      destruct (byteIs comma (nextByte line')) eqn:Hm.
      { split.
        - simpl. destruct Hinv' as [?|Hl]; [by left|right].
          by apply (lengthNL_tail1 line' comma newline_not_comma).
        - simpl. rewrite (tail1_length line' comma Hm) in Hlen. lia. }
      destruct (lengthNL line' =? String.length line')%nat.
      * split; [apply csvLineInv_endRecord|].
        simpl csvPotential at 2. apply potential_endRecord. right. lia.
      * split; [done | simpl; lia].
    + destruct (0 <? String.length line)%nat eqn:Hpos.
      * apply Nat.ltb_lt in Hpos.
        destruct (readLine input) as [[line' rest] eof] eqn:Hr.
        apply readLine_spec in Hr as (Hlen & _ & _ & Hnl).
        split; [exact Hnl|]. simpl. lia.
      * split; [done | simpl; lia].
  - by destruct (Hnf r).
Qed.

Lemma csvRun_total (fuel : nat) (s : csvState) :
  csvLineInv s → (csvPotential s ≤ fuel)%nat → ∃ r, csvRun fuel s = Some r.
Proof.
  revert s. induction fuel as [|fuel IH]; intros s Hinv Hle.
  - destruct s; simpl in *; try lia.
    + destruct input; lia.
    + by eexists.
  - assert ((∃ r, s = Finished r) ∨ (∀ r, s ≠ Finished r)) as [[r ->]|Hnf'].
    { destruct s; [right; discriminate .. | left; eauto]. }
    + by eexists.
    + destruct (csvStep_decreases s Hinv Hnf') as (Hinv' & Hlt).
      destruct (IH (csvStep s) Hinv' ltac:(lia)) as [r Hr].
      exists r. destruct s; try exact Hr. by destruct (Hnf' r0).
Qed.

(** [ReadAll] always returns: the bound of [csv_ReadAll] is never reached. *)
Lemma csv_ReadAll_total (body : string) : ∃ r, csv_ReadAll body = Some r.
Proof.
  apply csvRun_total; [done|].
  destruct (potential_AtRecord body 0 []) as (Hb & _ & _). lia.
Qed.

(** The call returns or panics: the bound on the steps of the reader plays
    no part in its outcome. *)
Lemma ReadTestsToRun_outcome
    (pkg : Package) (w : World) (tests : list TestSpec) (cloud suite : string) :
  (ReadTestsToRun pkg w tests cloud suite).2 ≠ StepBound.
Proof.
  unfold ReadTestsToRun.
  destruct (fetchBody pkg w cloud suite) as [e|body]; [done|].
  destruct (csv_ReadAll_total body) as [r ->].
  destruct r as [e|data]; [done|].
  destruct (len data <=? 1); [done|].
  destruct (loadRows ∅ (tail data)) as [tbl|p]; [|done].
  by destruct (selectTests tbl suite tests).
Qed.

(** ** The CSV reader returns records of one width *)

Lemma endRecord_uniform (dst : list string) (input : string)
    (fpr : nat) (records : list (list string)) :
  uniformRecords fpr records → dst ≠ [] →
  csvUniform (endRecord dst input fpr records).
Proof.
  intros [Hall Hzero] Hne. unfold endRecord.
  destruct (0 <? fpr)%nat eqn:Hpos.
  - apply Nat.ltb_lt in Hpos.
    destruct (length dst =? fpr)%nat eqn:Heq; simpl; [|done].
    apply Nat.eqb_eq in Heq. split; [|lia].
    apply Forall_app. split; [done|]. by constructor.
  - apply Nat.ltb_ge in Hpos. rewrite Hzero by lia. simpl. split.
    + by constructor.
    + intros Hl. destruct dst; [done | discriminate].
Qed.

Lemma snoc_not_nil {A : Type} (l : list A) (x : A) : l ++ [x] ≠ [].
Proof. by destruct l. Qed.

Lemma csvStep_uniform (s : csvState) : csvUniform s → csvUniform (csvStep s).
Proof.
  destruct s as [input fpr recs|line input dst fpr recs
                |line input buf dst fpr recs|r]; intros Hu; simpl in Hu.
  - unfold csvStep. destruct (readLine input) as [[line rest] eof].
    destruct eof; [destruct Hu; simpl; eauto|].
    by destruct (String.length line =? lengthNL line)%nat.
  - unfold csvStep. destruct (byteIs dquote (nextByte line)); [done|].
    destruct (cut comma line) as [[f line']|];
      (destruct (bool_decide _); [done|]); [done|].
    apply endRecord_uniform; [done | apply snoc_not_nil].
  - unfold csvStep. destruct (cut dquote line) as [[pre line']|].
    + destruct (byteIs dquote (nextByte line')); [done|].
      destruct (byteIs comma (nextByte line')); [done|].
      destruct (lengthNL line' =? String.length line')%nat; [|done].
      apply endRecord_uniform; [done | apply snoc_not_nil].
    + destruct (0 <? String.length line)%nat; [|done].
      by destruct (readLine input) as [[line' rest] eof].
  - done.
Qed.

Lemma csvRun_uniform (fuel : nat) (s : csvState) (data : list (list string)) :
  csvUniform s → csvRun fuel s = Some (inr data) →
  ∃ k, Forall (fun r => length r = k) data.
Proof.
  revert s. induction fuel as [|fuel IH]; intros s Hu Hr.
  - destruct s; simpl in Hr; try discriminate. by simplify_eq.
  - assert ((∃ r, s = Finished r) ∨ csvRun (S fuel) s = csvRun fuel (csvStep s))
      as [[r ->]|Heq].
    { destruct s; [right; reflexivity .. | left; eauto]. }
    + simpl in Hr. by simplify_eq.
    + rewrite Heq in Hr. eapply IH; [|exact Hr]. by apply csvStep_uniform.
Qed.

(** The reader only checks that every record has as many fields as the first
    one: what it returns is of one width, whatever that width is. *)
Lemma csv_ReadAll_uniform (body : string) (data : list (list string)) :
  csv_ReadAll body = Some (inr data) →
  ∃ k, Forall (fun r => length r = k) data.
Proof. apply csvRun_uniform. split; [constructor | done]. Qed.

(** ** The loader *)

Lemma loadRow_wide (tbl : gmap string testInfo) (d : list string) :
  (4 ≤ length d)%nat → loadRow tbl d = Val (insertRow tbl d).
Proof.
  destruct d as [|a [|b [|c [|e rest]]]]; simpl; intros; try lia. reflexivity.
Qed.

Lemma loadRow_narrow (tbl : gmap string testInfo) (d : list string) :
  (length d < 4)%nat →
  loadRow tbl d = Panic (IndexOutOfRange (Nat.max 2 (length d)) (length d)).
Proof.
  destruct d as [|a [|b [|c [|e rest]]]]; simpl; intros; try lia; reflexivity.
Qed.

Lemma loadRows_wide (rows : list (list string)) (tbl : gmap string testInfo) :
  Forall (fun d => (4 ≤ length d)%nat) rows →
  loadRows tbl rows = Val (foldl insertRow tbl rows).
Proof.
  revert tbl. induction rows as [|d rows IH]; intros tbl Hw; [done|].
  apply Forall_cons in Hw as [Hd Hw]. simpl.
  rewrite loadRow_wide by done. simpl. by apply IH.
Qed.

Lemma foldl_insertRow_other (rows : list (list string))
    (tbl : gmap string testInfo) (name : string) :
  Forall (fun d => rowName d ≠ name) rows →
  foldl insertRow tbl rows !! name = tbl !! name.
Proof.
  revert tbl. induction rows as [|d rows IH]; intros tbl Hn; [done|].
  apply Forall_cons in Hn as [Hd Hn]. simpl. rewrite IH by done.
  unfold insertRow. by rewrite lookup_insert_ne.
Qed.

(** The record of a name is the one of the last row that carries it. *)
Lemma foldl_insertRow_last (pre post : list (list string)) (d : list string)
    (tbl : gmap string testInfo) :
  Forall (fun d' => rowName d' ≠ rowName d) post →
  foldl insertRow tbl (pre ++ d :: post) !! rowName d = Some (rowInfo d).
Proof.
  intros Hn. rewrite foldl_app. simpl.
  rewrite foldl_insertRow_other by done.
  unfold insertRow. by rewrite lookup_insert_eq.
Qed.

Lemma foldl_insertRow_dom (rows : list (list string)) (tbl : gmap string testInfo) :
  dom (foldl insertRow tbl rows) = dom tbl ∪ list_to_set (rowName <$> rows).
Proof.
  revert tbl. induction rows as [|d rows IH]; intros tbl; simpl.
  - by rewrite (right_id_L ∅ (∪)).
  - rewrite IH. unfold insertRow. rewrite dom_insert_L.
    by rewrite (comm_L (∪) {[rowName d]} (dom tbl)), (assoc_L (∪)).
Qed.

(** A name that has a record keeps one, whatever rows follow. *)
Lemma foldl_insertRow_is_Some (rows : list (list string))
    (tbl : gmap string testInfo) (name : string) :
  is_Some (tbl !! name) → is_Some (foldl insertRow tbl rows !! name).
Proof.
  revert tbl. induction rows as [|d rows IH]; intros tbl Hs; [done|].
  simpl. apply IH. unfold insertRow. rewrite lookup_insert_is_Some. 
  destruct (decide (rowName d = name)); [by left | by right].
Qed.

(** ** strconv.ParseInt *)

Lemma ParseInt_syntax_zero (s : string) :
  (ParseInt s).2 = Some ErrSyntax → (ParseInt s).1 = 0.
Proof.
  unfold ParseInt. destruct s as [|c0 s1]; [done|].
  destruct (ParseUint _) as [un err].
  destruct err as [[]|]; [done | |];
    destruct (negb _ && _); try done; destruct (_ && _); done.
Qed.

(** On a range error the value is the bound of [int64] on the side of the
    sign: the least [int64] for a cell that starts with a minus sign, the
    greatest for every other cell. *)
Lemma ParseInt_range_side (s : string) :
  (ParseInt s).2 = Some ErrRange → (ParseInt s).1 = boundOnSide s.
Proof.
  unfold ParseInt, boundOnSide, isNegative. destruct s as [|c0 s1]; [done|].
  destruct (ParseUint _) as [un err].
  destruct (Ascii.eqb c0 "-"); cbn [negb andb];
    destruct err as [[]|]; try done;
    repeat match goal with
           | |- context [if ?b then _ else _] => destruct b
           end; done.
Qed.

Lemma ParseUint_loop_nondigit (c : ascii) (rest : string) (n : Z) :
  isDigit c = false → ParseUint_loop (String c rest) n = (0, Some ErrSyntax).
Proof.
  unfold isDigit. intros Hd. unfold ParseUint_loop, digitVal.
  rewrite Hd.
  destruct ((97 <=? lower (byteZ c)) && (lower (byteZ c) <=? 122)) eqn:Hl; [|done].
  apply andb_true_iff in Hl as [Hl1 Hl2].
  apply Z.leb_le in Hl1.
  destruct (Z.leb_spec 10 (lower (byteZ c) - 97 + 10)); [done | lia].
Qed.

(** One turn of the loop on a digit, far enough from the overflow. *)
Lemma ParseUint_loop_digit (a : ascii) (s : string) (n : Z) :
  isDigit a = true → 0 ≤ n → n * 10 + 9 ≤ maxUint64 →
  ParseUint_loop (String a s) n = ParseUint_loop s (n * 10 + (byteZ a - 48)).
Proof.
  unfold isDigit. intros Hd Hn Hb.
  change (ParseUint_loop (String a s) n)
    with (match digitVal (byteZ a) with
          | None => (0, Some ErrSyntax)
          | Some d =>
              if 10 <=? d then (0, Some ErrSyntax)
              else if cutoff10 <=? n then (maxUint64, Some ErrRange)
              else
                let n10 := wrap_uint64 (n * 10) in
                let n1 := wrap_uint64 (n10 + d) in
                if (n1 <? n10) || (maxUint64 <? n1) then (maxUint64, Some ErrRange)
                else ParseUint_loop s n1
          end).
  unfold digitVal. rewrite Hd.
  apply andb_true_iff in Hd as [H1 H2]. apply Z.leb_le in H1, H2.
  assert (maxUint64 = 18446744073709551615) as HM by reflexivity.
  assert (cutoff10 = 1844674407370955162) as HC by reflexivity.
  destruct (Z.leb_spec 10 (byteZ a - 48)); [lia|].
  destruct (Z.leb_spec cutoff10 n); [lia|].
  cbv zeta. unfold wrap_uint64.
  rewrite (Z.mod_small (n * 10)) by lia.
  rewrite (Z.mod_small (n * 10 + (byteZ a - 48))) by lia.
  destruct (Z.ltb_spec (n * 10 + (byteZ a - 48)) (n * 10)); [lia|].
  destruct (Z.ltb_spec maxUint64 (n * 10 + (byteZ a - 48))); [lia|].
  reflexivity.
Qed.

(** The loop reaches a byte that is not a digit when the digits before it do
    not overflow: the result is the syntax error. *)
Lemma ParseUint_loop_digits (p : string) :
  ∀ (n : Z) (c : ascii) (rest : string),
    allDigits p = true → isDigit c = false → 0 ≤ n →
    (n + 1) * 10 ^ Z.of_nat (String.length p) - 1 ≤ maxUint64 →
    ParseUint_loop (p +:+ String c rest) n = (0, Some ErrSyntax).
Proof.
  induction p as [|a p IH]; intros n c rest Hp Hc Hn Hb.
  - by apply ParseUint_loop_nondigit.
  - simpl in Hp. apply andb_true_iff in Hp as [Ha Hp].
    rewrite append_cons.
    simpl String.length in Hb. rewrite Nat2Z.inj_succ, Z.pow_succ_r in Hb by lia.
    assert (1 ≤ 10 ^ Z.of_nat (String.length p)) as Hpow.
    { apply (Z.pow_le_mono_r 10 0); lia. }
    pose proof Ha as Ha'. unfold isDigit in Ha'.
    apply andb_true_iff in Ha' as [H1 H2]. apply Z.leb_le in H1, H2.
    rewrite ParseUint_loop_digit; [|done|done|nia].
    apply IH; [done | done | lia | nia].
Qed.

Lemma ParseUint_not_a_number (p : string) (c : ascii) (rest : string) :
  allDigits p = true → (String.length p ≤ 19)%nat → isDigit c = false →
  ParseUint (p +:+ String c rest) = (0, Some ErrSyntax).
Proof.
  intros Hp Hl Hc.
  assert (ParseUint (p +:+ String c rest) = ParseUint_loop (p +:+ String c rest) 0) as ->.
  { by destruct p. }
  apply ParseUint_loop_digits; [done | done | lia |].
  assert (10 ^ Z.of_nat (String.length p) ≤ 10 ^ 19) as Hpow.
  { apply Z.pow_le_mono_r; lia. }
  assert (10 ^ 19 = 10000000000000000000) as E by reflexivity.
  assert (maxUint64 = 18446744073709551615) as HM by reflexivity.
  lia.
Qed.

(** A cell that is not a decimal number is a syntax error, with value 0. *)
Lemma ParseInt_not_a_number (cell : string) :
  notANumber cell → ParseInt cell = (0, Some ErrSyntax).
Proof.
  unfold notANumber, unsignedPart, ParseInt. destruct cell as [|c0 s1]; [done|].
  destruct (Ascii.eqb c0 "+") eqn:Hplus.
  - intros [->|(p & c & rest & -> & Hp & Hl & Hd)]; [done|].
    by rewrite ParseUint_not_a_number.
  - destruct (Ascii.eqb c0 "-") eqn:Hminus.
    + intros [->|(p & c & rest & -> & Hp & Hl & Hd)]; [done|].
      by rewrite ParseUint_not_a_number.
    + intros [?|(p & c & rest & Heq & Hp & Hl & Hd)]; [done|].
      rewrite Heq. by rewrite ParseUint_not_a_number.
Qed.

(** ** The loader and the call as a whole: the claims *)

(** C5. When the payload parses to the header alone, or to nothing, the call
    succeeds, changes no candidate and returns the number of candidates. *)
Theorem header_only_selects_all
    (pkg : Package) (w : World) (tests : list TestSpec) (cloud suite : string)
    (body : string) (data : list (list string)) :
  fetchBody pkg w cloud suite = inr body →
  csv_ReadAll body = Some (inr data) →
  (length data ≤ 1)%nat →
  ReadTestsToRun pkg w tests cloud suite = (tests, Returned (len tests) None).
Proof.
  intros Hf Hc Hl. unfold ReadTestsToRun. rewrite Hf, Hc.
  destruct (Z.leb_spec (len data) 1) as [_|Hgt]; [done|].
  unfold len in Hgt. lia.
Qed.

Lemma header_only_selects_all_witness :
  let tests := [mkTestSpec "A" "" "" None; mkTestSpec "B" "flaky" "" None] in
  let header := unlines ["name,selected,avg_duration,total_runs"] in
  (csv_ReadAll header = Some (inr [["name"; "selected"; "avg_duration"; "total_runs"]])
   ∧ ReadTestsToRun examplePackage (servingWorld header) tests "gce" "nightly"
     = (tests, Returned 2 None))
  ∧ (csv_ReadAll "" = Some (inr [])
     ∧ ReadTestsToRun examplePackage (servingWorld "") tests "gce" "nightly"
       = (tests, Returned 2 None)).
Proof.
  split; (split; [vm_compute; reflexivity|]).
  - apply (header_only_selects_all examplePackage
             (servingWorld (unlines ["name,selected,avg_duration,total_runs"]))
             [mkTestSpec "A" "" "" None; mkTestSpec "B" "flaky" "" None] "gce" "nightly"
             (unlines ["name,selected,avg_duration,total_runs"])
             [["name"; "selected"; "avg_duration"; "total_runs"]]);
      [reflexivity | vm_compute; reflexivity | simpl; lia].
  - apply (header_only_selects_all examplePackage (servingWorld "")
             [mkTestSpec "A" "" "" None; mkTestSpec "B" "flaky" "" None] "gce" "nightly"
             "" []);
      [reflexivity | vm_compute; reflexivity | simpl; lia].
Defined.

(** C6 as stated fails: a duration cell too large for [int64] does not parse
    ([ParseInt] reports a range error), and the record is built with the
    largest [int64], not with 0. *)
Lemma overflowing_cell_is_not_zero :
  let row := ["A"; "yes"; "99999999999999999999"; "7"] in
  parseFailure "99999999999999999999" = Some ErrRange
  ∧ loadRow ∅ row = Val {["A" := mkTestInfo true 9223372036854775807 7]}
  ∧ getDuration "99999999999999999999" ≠ 0.
Proof. repeat split; [vm_compute; reflexivity .. | discriminate]. Qed.

(** C6, amended. A numeric cell that [ParseInt] rejects never raises an error
    and never drops the row: the record is built and stored under the name of
    the row. The field is 0 when the cell is a syntax error (as for "abc",
    and for every cell in which, after the sign, nothing follows or a byte
    that is not a digit comes after at most 19 digits); it is the bound of
    [int64] on the side of the sign when the cell is out of range: the least
    [int64] for a cell that starts with a minus sign, the greatest
    otherwise. *)
Theorem lenient_numeric_cells
    (tbl : gmap string testInfo) (name sel dur runs : string) (extra : list string) :
  let d := name :: sel :: dur :: runs :: extra in
  let info := {| selected := negb (String.eqb sel "no");
                 avgDurationInMillis := getDuration dur;
                 totalRuns := getTotalRuns runs |} in
  loadRow tbl d = Val (<[name := info]> tbl)
  ∧ (∀ pre post : list (list string),
       Forall (fun r => (4 ≤ length r)%nat) (pre ++ post) →
       ∃ tbl', loadRows tbl (pre ++ d :: post) = Val tbl'
               ∧ is_Some (tbl' !! name)
               ∧ (Forall (fun r => rowName r ≠ name) post → tbl' !! name = Some info))
  ∧ (parseFailure dur = Some ErrSyntax → getDuration dur = 0)
  ∧ (parseFailure runs = Some ErrSyntax → getTotalRuns runs = 0)
  ∧ (parseFailure dur = Some ErrRange →
     getDuration dur = (if isNegative dur then MinInt64 else MaxInt64))
  ∧ (parseFailure runs = Some ErrRange →
     getTotalRuns runs = (if isNegative runs then MinInt64 else MaxInt64))
  ∧ (∀ cell : string, notANumber cell → ParseInt cell = (0, Some ErrSyntax)).
Proof.
  intros d info. split; [reflexivity|]. split; [|repeat split].
  - intros pre post Hw. apply Forall_app in Hw as [Hpre Hpost].
    exists (foldl insertRow tbl (pre ++ d :: post)).
    split; [|split].
    + apply loadRows_wide. apply Forall_app. split; [done|].
      constructor; [simpl; lia | done].
    + rewrite foldl_app.
      change (foldl insertRow (foldl insertRow tbl pre) (d :: post))
        with (foldl insertRow (insertRow (foldl insertRow tbl pre) d) post).
      apply foldl_insertRow_is_Some. unfold insertRow.
      change (rowName d) with name. rewrite lookup_insert_eq. by eexists.
    + intros Hn. apply (foldl_insertRow_last pre post d tbl Hn).
  - apply ParseInt_syntax_zero.
  - apply ParseInt_syntax_zero.
  - apply ParseInt_range_side.
  - apply ParseInt_range_side.
  - apply ParseInt_not_a_number.
Qed.

Lemma lenient_numeric_cells_witness :
  loadRow ∅ ["A"; "yes"; "abc"; "99999999999999999999"]
  = Val {["A" := mkTestInfo true 0 9223372036854775807]}
  ∧ notANumber "abc"
  ∧ ParseInt "abc" = (0, Some ErrSyntax)
  ∧ parseFailure "99999999999999999999" = Some ErrRange
  ∧ getTotalRuns "99999999999999999999" = 9223372036854775807
  ∧ parseFailure "-99999999999999999999a" = Some ErrRange
  ∧ getDuration "-99999999999999999999a" = -9223372036854775808.
Proof.
  pose proof (lenient_numeric_cells ∅ "A" "yes" "abc" "99999999999999999999" [])
    as (Hrow & _ & _ & _ & _ & Hruns & Hnan).
  pose proof (lenient_numeric_cells ∅ "A" "yes" "-99999999999999999999a" "1" [])
    as (_ & _ & _ & _ & Hdur & _).
  assert (notANumber "abc") as Habc.
  { right. exists "", "a"%char, "bc".
    split; [reflexivity|]. split; [reflexivity|]. split; [simpl; lia | reflexivity]. }
  split; [exact Hrow|]. split; [exact Habc|]. split; [exact (Hnan "abc" Habc)|].
  split; [reflexivity|]. split; [exact (Hruns eq_refl)|].
  split; [reflexivity|]. exact (Hdur eq_refl).
Defined.

(** C7 as stated fails: a payload whose rows all have five columns is
    malformed in the sense of the specification, yet the reader accepts it:
    the call returns no error and marks a candidate. *)
Lemma extra_column_is_accepted :
  let a := mkTestSpec "A" "" "" None in
  let b := mkTestSpec "B" "" "" None in
  let body := unlines ["name,selected,avg_duration,total_runs,owner"; "A,no,100,5,kv"] in
  let data := [["name"; "selected"; "avg_duration"; "total_runs"; "owner"];
               ["A"; "no"; "100"; "5"; "kv"]] in
  csv_ReadAll body = Some (inr data)
  ∧ spec_malformed data
  ∧ ReadTestsToRun examplePackage (servingWorld body) [a; b] "gce" "nightly"
    = ([markSkipped a; b], Returned 1 None)
  ∧ markSkipped a ≠ a.
Proof.
  split; [vm_compute; reflexivity|]. split; [|split].
  - exists ["A"; "no"; "100"; "5"; "kv"]. split; [|simpl; lia].
    apply list_elem_of_further, list_elem_of_here.
  - vm_compute; reflexivity.
  - discriminate.
Qed.

(** C7, amended. Every error the call detects: a failed connection, a failed
    open of the object, a failed read, or a payload the CSV reader rejects (a
    quoting error, or a row whose number of fields differs from that of the
    first row), is returned wrapped, together with the number of candidates,
    and no candidate is changed. *)
Theorem fatal_error_returns_full_count
    (pkg : Package) (w : World) (tests : list TestSpec) (cloud suite : string)
    (err : error) :
  fatalError pkg w cloud suite err →
  ReadTestsToRun pkg w tests cloud suite = (tests, Returned (len tests) (Some err)).
Proof.
  intros Hf. unfold ReadTestsToRun, fetchBody.
  destruct Hf as [e He|client e Hc He|client r e Hc Hr He|client r body e Hc Hr Hb He].
  - by rewrite He.
  - by rewrite Hc, He.
  - by rewrite Hc, Hr, He.
  - by rewrite Hc, Hr, Hb, He.
Qed.

Lemma fatal_error_returns_full_count_witness :
  let tests := [mkTestSpec "A" "" "" None; mkTestSpec "B" "" "" None] in
  let body := unlines ["name,selected,avg_duration,total_runs"; "A,no,100"] in
  let err := AssertionErrorWrapped (CsvParseError ErrFieldCount) "failed to read CSV data" in
  fatalError examplePackage (servingWorld body) "gce" "nightly" err
  ∧ ReadTestsToRun examplePackage (servingWorld body) tests "gce" "nightly"
    = (tests, Returned 2 (Some err)).
Proof.
  assert (fatalError examplePackage
            (servingWorld (unlines ["name,selected,avg_duration,total_runs"; "A,no,100"]))
            "gce" "nightly"
            (AssertionErrorWrapped (CsvParseError ErrFieldCount) "failed to read CSV data"))
    as Hf.
  { apply (csvFailure examplePackage
             (servingWorld (unlines ["name,selected,avg_duration,total_runs"; "A,no,100"]))
             "gce" "nightly" tt tt
             (unlines ["name,selected,avg_duration,total_runs"; "A,no,100"]) ErrFieldCount);
      [reflexivity | reflexivity | reflexivity | vm_compute; reflexivity]. }
  split; [exact Hf|].
  exact (fatal_error_returns_full_count examplePackage _
           [mkTestSpec "A" "" "" None; mkTestSpec "B" "" "" None] "gce" "nightly" _ Hf).
Defined.

(** C8. The table has at most one record per test name: its entries have
    pairwise different names, one for each name that occurs in the rows; and
    the record of a name is the one built from the last row with that name. *)
Theorem duplicate_names_last_wins (rows : list (list string)) :
  Forall (fun d => (4 ≤ length d)%nat) rows →
  ∃ tbl : gmap string testInfo,
    loadRows ∅ rows = Val tbl
    ∧ NoDup (map_to_list tbl).*1
    ∧ dom tbl = list_to_set (rowName <$> rows)
    ∧ ∀ (pre post : list (list string)) (d : list string),
        rows = pre ++ d :: post →
        Forall (fun d' => rowName d' ≠ rowName d) post →
        tbl !! rowName d = Some (rowInfo d).
Proof.
  intros Hw. exists (foldl insertRow ∅ rows).
  split; [by apply loadRows_wide|]. split; [apply NoDup_fst_map_to_list|]. split.
  - rewrite foldl_insertRow_dom, dom_empty_L. apply (left_id_L ∅ (∪)).
  - intros pre post d -> Hn. by apply foldl_insertRow_last.
Qed.

Lemma duplicate_names_last_wins_witness :
  let rows := [["A"; "no"; "100"; "5"]; ["B"; "yes"; "7"; "1"]; ["A"; "yes"; "250"; "6"]] in
  Forall (fun d => (4 ≤ length d)%nat) rows
  ∧ ∃ tbl : gmap string testInfo,
      loadRows ∅ rows = Val tbl
      ∧ NoDup (map_to_list tbl).*1
      ∧ dom tbl = list_to_set (rowName <$> rows)
      ∧ ∀ (pre post : list (list string)) (d : list string),
          rows = pre ++ d :: post →
          Forall (fun d' => rowName d' ≠ rowName d) post →
          tbl !! rowName d = Some (rowInfo d).
Proof.
  assert (Forall (fun d => (4 ≤ length d)%nat)
            [["A"; "no"; "100"; "5"]; ["B"; "yes"; "7"; "1"]; ["A"; "yes"; "250"; "6"]])
    as Hw.
  { repeat constructor; simpl; lia. }
  split; [exact Hw|].
  exact (duplicate_names_last_wins _ Hw).
Defined.

(** A payload with two rows for one name: the later row decides. Here the
    first row alone would have the candidate skipped. *)
Lemma duplicate_rows_in_payload :
  let a := mkTestSpec "A" "" "" None in
  let body := unlines ["name,selected,avg_duration,total_runs";
                       "A,no,100,5"; "A,yes,250,6"] in
  ReadTestsToRun examplePackage (servingWorld body) [a] "gce" "nightly"
  = ([a], Returned 1 None).
Proof. vm_compute; reflexivity. Qed.

(** C10. The reader accepts payloads whose rows all have the same number of
    fields, whatever that number is. When it is less than 4 and there is a
    data row, the loader reads the first data row out of range: the call
    panics instead of returning the parse error, with no candidate changed.
    The index of the panic is 2 for rows of fewer than three fields and 3 for
    rows of three. The payloads of two lines with three columns each, and
    with one column each, are such payloads. *)
Theorem short_rows_panic :
  (∀ (pkg : Package) (w : World) (tests : list TestSpec) (cloud suite : string)
     (body : string) (data : list (list string)),
     fetchBody pkg w cloud suite = inr body →
     csv_ReadAll body = Some (inr data) →
     1 < len data →
     Forall (fun r => (length r < 4)%nat) data →
     ∃ k : nat,
       (k < 4)%nat
       ∧ Forall (fun r => length r = k) data
       ∧ ReadTestsToRun pkg w tests cloud suite
         = (tests, Panicked (IndexOutOfRange (Nat.max 2 k) k)))
  ∧ (∃ body : string,
       csv_ReadAll body
       = Some (inr [["name"; "selected"; "avg_duration"]; ["A"; "no"; "100"]])
       ∧ ∀ (tests : list TestSpec) (cloud suite : string),
           ReadTestsToRun examplePackage (servingWorld body) tests cloud suite
           = (tests, Panicked (IndexOutOfRange 3 3)))
  ∧ (∃ body : string,
       csv_ReadAll body = Some (inr [["name"]; ["A"]])
       ∧ ∀ (tests : list TestSpec) (cloud suite : string),
           ReadTestsToRun examplePackage (servingWorld body) tests cloud suite
           = (tests, Panicked (IndexOutOfRange 2 1))).
Proof.
  split; [|split].
  - intros pkg w tests cloud suite body data Hf Hc Hl Hshort.
    destruct (csv_ReadAll_uniform body data Hc) as [k Hk].
    destruct data as [|hdr [|d rows]]; unfold len in Hl; simpl in Hl; try lia.
    exists k.
    pose proof Hk as Hall.
    apply Forall_cons in Hk as [_ Hk]. apply Forall_cons in Hk as [Hd _].
    apply Forall_cons in Hshort as [_ Hshort].
    apply Forall_cons in Hshort as [Hdk _].
    split; [lia|]. split; [exact Hall|].
    unfold ReadTestsToRun. rewrite Hf, Hc.
    destruct (Z.leb_spec (len (hdr :: d :: rows)) 1) as [Hle|_].
    { unfold len in Hle. simpl in Hle. lia. }
    simpl tail. simpl loadRows. rewrite loadRow_narrow by lia. simpl.
    by rewrite Hd.
  - exists (unlines ["name,selected,avg_duration"; "A,no,100"]).
    split; [vm_compute; reflexivity|].
    intros tests cloud suite. reflexivity.
  - exists (unlines ["name"; "A"]).
    split; [vm_compute; reflexivity|].
    intros tests cloud suite. reflexivity.
Qed.

Lemma short_rows_panic_witness :
  let tests := [mkTestSpec "A" "" "" None] in
  (∃ k : nat,
     (k < 4)%nat
     ∧ Forall (fun r => length r = k)
              [["name"; "selected"; "avg_duration"]; ["A"; "no"; "100"]]
     ∧ ReadTestsToRun examplePackage
         (servingWorld (unlines ["name,selected,avg_duration"; "A,no,100"]))
         tests "gce" "nightly"
       = (tests, Panicked (IndexOutOfRange (Nat.max 2 k) k)))
  ∧ (∃ k : nat,
       (k < 4)%nat
       ∧ Forall (fun r => length r = k) [["name"]; ["A"]]
       ∧ ReadTestsToRun examplePackage (servingWorld (unlines ["name"; "A"]))
           tests "gce" "nightly"
         = (tests, Panicked (IndexOutOfRange (Nat.max 2 k) k))).
Proof.
  split.
  - apply (proj1 short_rows_panic examplePackage
             (servingWorld (unlines ["name,selected,avg_duration"; "A,no,100"]))
             [mkTestSpec "A" "" "" None] "gce" "nightly"
             (unlines ["name,selected,avg_duration"; "A,no,100"])
             [["name"; "selected"; "avg_duration"]; ["A"; "no"; "100"]]).
    + reflexivity.
    + vm_compute; reflexivity.
    + reflexivity.
    + repeat constructor; simpl; lia.
  - apply (proj1 short_rows_panic examplePackage
             (servingWorld (unlines ["name"; "A"]))
             [mkTestSpec "A" "" "" None] "gce" "nightly"
             (unlines ["name"; "A"])
             [["name"]; ["A"]]).
    + reflexivity.
    + vm_compute; reflexivity.
    + reflexivity.
    + repeat constructor; simpl; lia.
Defined.

(** ** Further properties of the selector *)

Section SelectorMore.
Variable tbl : gmap string testInfo.
Variable suite : string.

(** After the pass no candidate is left that the pass would mark. *)
Lemma selectOne_not_skipped (t : TestSpec) :
  testShouldBeSkipped tbl (selectOne tbl suite t) suite = false.
Proof.
  unfold selectOne. destruct (testShouldBeSkipped tbl t suite) eqn:Hs; [|done].
  apply not_skipped_iff. intros (_ & _ & Hm). discriminate.
Qed.

Lemma selectOne_changes (t : TestSpec) :
  testShouldBeSkipped tbl t suite = true → selectOne tbl suite t ≠ t.
Proof.
  intros Hs. unfold selectOne. rewrite Hs.
  apply skipped_iff in Hs as (_ & _ & Hskip).
  intros Heq. apply (f_equal Skip) in Heq. rewrite Hskip in Heq. discriminate.
Qed.

Lemma selectOne_keeps (t : TestSpec) :
  testShouldBeSkipped tbl t suite = false → selectOne tbl suite t = t.
Proof. intros Hs. unfold selectOne. by rewrite Hs. Qed.

Lemma selectOne_Name (t : TestSpec) : Name (selectOne tbl suite t) = Name t.
Proof. unfold selectOne. by destruct (testShouldBeSkipped tbl t suite). Qed.

Lemma selectOne_optOut (t : TestSpec) :
  TestSelectionOptOutSuites (selectOne tbl suite t) = TestSelectionOptOutSuites t.
Proof. unfold selectOne. by destruct (testShouldBeSkipped tbl t suite). Qed.

Lemma countAll_none_skipped (tests : list TestSpec) :
  Forall (fun t => testShouldBeSkipped tbl t suite = false) tests →
  countAll tbl suite tests = len tests.
Proof.
  unfold len. induction 1 as [|t tests Ht _ IH]; [done|].
  simpl countAll. unfold countOne. rewrite Ht, IH. simpl length. lia.
Qed.

End SelectorMore.

(** X1. The pass keeps the length of the list, and the number it returns and
    the number of candidates it changes add up to the number of candidates:
    each candidate is either counted or changed, never both, never neither. *)
Theorem selected_count_accounting
    (tbl : gmap string testInfo) (suite : string) (tests : list TestSpec) :
  length (selectTests tbl suite tests).1 = length tests
  ∧ 0 ≤ (selectTests tbl suite tests).2
  ∧ (selectTests tbl suite tests).2 + changedCount tests (selectTests tbl suite tests).1
    = len tests.
Proof.
  rewrite selectTests_map. simpl. split; [by rewrite length_map|].
  unfold changedCount, len.
  induction tests as [|t tests [IH0 IH]]; [done|].
  cbn [countAll foldr map zip zip_with List.filter fst snd].
  destruct (testShouldBeSkipped tbl t suite) eqn:Hs.
  - assert (countOne tbl suite t = 0) as -> by (unfold countOne; by rewrite Hs).
    pose proof (selectOne_changes tbl suite t Hs) as Hne.
    rewrite (bool_decide_eq_false_2 (t = selectOne tbl suite t))
      by (intros Heq; by apply Hne).
    cbn [negb length]. fold (countAll tbl suite tests).
    split; [lia|]. rewrite !Nat2Z.inj_succ. lia.
  - assert (countOne tbl suite t = 1) as -> by (unfold countOne; by rewrite Hs).
    rewrite (bool_decide_eq_true_2 (t = selectOne tbl suite t))
      by (by rewrite selectOne_keeps).
    cbn [negb length]. fold (countAll tbl suite tests).
    split; [lia|]. rewrite !Nat2Z.inj_succ. lia.
Qed.

(** X2. Whatever the world answers, a count the call returns lies between 0
    and the number of candidates, the list keeps its length, and a count
    returned with an error is the number of candidates. *)
Theorem returned_count_bounds
    (pkg : Package) (w : World) (tests : list TestSpec) (cloud suite : string)
    (n : Z) (e : option error) :
  (ReadTestsToRun pkg w tests cloud suite).2 = Returned n e →
  0 ≤ n ≤ len tests
  ∧ length (ReadTestsToRun pkg w tests cloud suite).1 = length tests
  ∧ (e ≠ None → n = len tests).
Proof.
  assert (0 ≤ len tests) as Hlen by (unfold len; lia).
  unfold ReadTestsToRun.
  destruct (fetchBody pkg w cloud suite) as [err|body].
  { simpl. intros [= <- <-]. repeat split; lia. }
  destruct (csv_ReadAll body) as [[err|data]|]; [| |done].
  { simpl. intros [= <- <-]. repeat split; lia. }
  destruct (len data <=? 1).
  { simpl. intros [= <- <-]. repeat split; try lia; done. }
  destruct (loadRows ∅ (tail data)) as [tbl|p]; [|done].
  pose proof (countAll_bounds tbl suite tests) as Hb.
  rewrite selectTests_map. simpl. intros [= <- <-].
  split; [done|]. split; [by rewrite length_map | done].
Qed.

Lemma returned_count_bounds_witness :
  let a := mkTestSpec "A" "" "" None in
  let b := mkTestSpec "B" "" "" None in
  let body := unlines ["name,selected,avg_duration,total_runs"; "A,no,100,5"] in
  (ReadTestsToRun examplePackage (servingWorld body) [a; b] "gce" "nightly").2
  = Returned 1 None
  ∧ 0 ≤ 1 ≤ len [a; b].
Proof.
  assert ((ReadTestsToRun examplePackage
             (servingWorld (unlines ["name,selected,avg_duration,total_runs"; "A,no,100,5"]))
             [mkTestSpec "A" "" "" None; mkTestSpec "B" "" "" None] "gce" "nightly").2
          = Returned 1 None) as Hr by (vm_compute; reflexivity).
  split; [exact Hr|].
  exact (proj1 (returned_count_bounds _ _ _ _ _ _ _ Hr)).
Defined.

(** X3. The call never touches the name or the opt-out set of a candidate, and
    never reorders, drops or adds candidates: the names and the opt-out sets
    read off the list are the same before and after, whatever the outcome. *)
Theorem names_and_optOuts_preserved
    (pkg : Package) (w : World) (tests : list TestSpec) (cloud suite : string) :
  Name <$> (ReadTestsToRun pkg w tests cloud suite).1 = Name <$> tests
  ∧ TestSelectionOptOutSuites <$> (ReadTestsToRun pkg w tests cloud suite).1
    = TestSelectionOptOutSuites <$> tests.
Proof.
  unfold ReadTestsToRun.
  destruct (fetchBody pkg w cloud suite) as [err|body]; [done|].
  destruct (csv_ReadAll body) as [[err|data]|]; [done| |done].
  destruct (len data <=? 1); [done|].
  destruct (loadRows ∅ (tail data)) as [tbl|p]; [|done].
  rewrite selectTests_map. simpl. split.
  - rewrite <- list_fmap_compose. apply list_fmap_ext.
    intros i t _. apply selectOne_Name.
  - rewrite <- list_fmap_compose. apply list_fmap_ext.
    intros i t _. apply selectOne_optOut.
Qed.

(** X4. Candidates are only changed by a call that returns without error: when
    the call returns an error or panics, the list is as it was. *)
Theorem mutation_only_on_success
    (pkg : Package) (w : World) (tests : list TestSpec) (cloud suite : string) :
  (∀ n, (ReadTestsToRun pkg w tests cloud suite).2 ≠ Returned n None) →
  (ReadTestsToRun pkg w tests cloud suite).1 = tests.
Proof.
  unfold ReadTestsToRun.
  destruct (fetchBody pkg w cloud suite) as [err|body]; [done|].
  destruct (csv_ReadAll body) as [[err|data]|]; [done| |done].
  destruct (len data <=? 1); [done|].
  destruct (loadRows ∅ (tail data)) as [tbl|p]; [|done].
  destruct (selectTests tbl suite tests) as [tests' c]. simpl.
  intros Hn. by destruct (Hn c).
Qed.

Lemma mutation_only_on_success_witness :
  let a := mkTestSpec "A" "" "" None in
  let w := scriptedWorld None (Some (StoreError "object does not exist")) (inr "") in
  (∀ n, (ReadTestsToRun examplePackage w [a] "gce" "nightly").2 ≠ Returned n None)
  ∧ (ReadTestsToRun examplePackage w [a] "gce" "nightly").1 = [a].
Proof.
  assert (∀ n, (ReadTestsToRun examplePackage
                  (scriptedWorld None (Some (StoreError "object does not exist")) (inr ""))
                  [mkTestSpec "A" "" "" None] "gce" "nightly").2 ≠ Returned n None) as Hn.
  { intros n. vm_compute. discriminate. }
  split; [exact Hn|].
  exact (mutation_only_on_success _ _ _ _ _ Hn).
Defined.

(** X5. After the pass, no candidate is left that the selector would mark: every
    candidate with a deselected record and no opt-out carries a skip. *)
Theorem no_candidate_left_to_mark
    (tbl : gmap string testInfo) (suite : string) (tests : list TestSpec) :
  Forall (fun t => ¬ historicallyDeselected tbl suite t) (selectTests tbl suite tests).1.
Proof.
  rewrite selectTests_map. simpl. apply Forall_fmap, Forall_forall.
  intros t _. simpl. apply not_skipped_iff, selectOne_not_skipped.
Qed.

(** X6. The count is not idempotent: a second pass over the list the first pass
    left changes nothing and counts every candidate, also those the first
    pass marked. *)
Theorem second_pass_counts_all
    (tbl : gmap string testInfo) (suite : string) (tests : list TestSpec) :
  selectTests tbl suite (selectTests tbl suite tests).1
  = ((selectTests tbl suite tests).1, len tests).
Proof.
  pose proof (selectTests_twice tbl suite tests) as Ht.
  rewrite (selectTests_map tbl suite (selectTests tbl suite tests).1) in *.
  simpl in Ht. rewrite Ht. f_equal.
  rewrite selectTests_map. simpl.
  rewrite countAll_none_skipped.
  - unfold len. by rewrite length_map.
  - apply Forall_fmap, Forall_forall. intros t _. apply selectOne_not_skipped.
Qed.

(** X7. The decision reads only the selected flag of a record: two tables that
    agree, for the name of every candidate, on whether there is a record and
    on its selected flag give the same result, whatever their durations and
    run counts. *)
Theorem numeric_fields_irrelevant
    (tbl1 tbl2 : gmap string testInfo) (suite : string) (tests : list TestSpec) :
  (∀ t, t ∈ tests → selected <$> tbl1 !! Name t = selected <$> tbl2 !! Name t) →
  selectTests tbl1 suite tests = selectTests tbl2 suite tests.
Proof.
  intros Hagree.
  assert (∀ t, t ∈ tests →
            testShouldBeSkipped tbl1 t suite = testShouldBeSkipped tbl2 t suite) as Hv.
  { intros t Ht. specialize (Hagree t Ht). unfold testShouldBeSkipped.
    destruct (IsInitialized _ && Contains _ _); [done|].
    destruct (tbl1 !! Name t) as [i1|], (tbl2 !! Name t) as [i2|];
      simpl in Hagree; try discriminate; [|done].
    by injection Hagree as ->. }
  rewrite !selectTests_map. clear Hagree.
  induction tests as [|t tests IH]; [done|].
  assert (testShouldBeSkipped tbl1 t suite = testShouldBeSkipped tbl2 t suite) as Ht.
  { apply Hv. apply list_elem_of_here. }
  assert ((map (selectOne tbl1 suite) tests, countAll tbl1 suite tests)
          = (map (selectOne tbl2 suite) tests, countAll tbl2 suite tests)) as Hrec.
  { apply IH. intros t' Ht'. apply Hv. by apply list_elem_of_further. }
  injection Hrec as Hm Hc.
  simpl. unfold selectOne at 1 3, countOne at 1 2. by rewrite Ht, Hm, Hc.
Qed.

Lemma numeric_fields_irrelevant_witness :
  let a := mkTestSpec "A" "" "" None in
  let tbl1 : gmap string testInfo := {["A" := mkTestInfo false 100 5]} in
  let tbl2 : gmap string testInfo := {["A" := mkTestInfo false 0 9000]} in
  (∀ t, t ∈ [a] → selected <$> tbl1 !! Name t = selected <$> tbl2 !! Name t)
  ∧ selectTests tbl1 "nightly" [a] = selectTests tbl2 "nightly" [a].
Proof.
  assert (∀ t, t ∈ [mkTestSpec "A" "" "" None] →
            selected <$> ({["A" := mkTestInfo false 100 5]} : gmap string testInfo) !! Name t
            = selected <$> ({["A" := mkTestInfo false 0 9000]} : gmap string testInfo) !! Name t)
    as Hagree.
  { intros t Ht. apply list_elem_of_singleton in Ht. subst t. reflexivity. }
  split; [exact Hagree|].
  exact (numeric_fields_irrelevant _ _ "nightly" _ Hagree).
Defined.

(** X8. The suite matters only through the opt-out sets: two suites that every
    candidate has opted out of alike give the same result. *)
Theorem suite_matters_through_optOut
    (tbl : gmap string testInfo) (suite1 suite2 : string) (tests : list TestSpec) :
  (∀ t, t ∈ tests → (optedOut t suite1 ↔ optedOut t suite2)) →
  selectTests tbl suite1 tests = selectTests tbl suite2 tests.
Proof.
  intros Hagree.
  assert (∀ t, t ∈ tests →
            testShouldBeSkipped tbl t suite1 = testShouldBeSkipped tbl t suite2) as Hv.
  { intros t Ht. specialize (Hagree t Ht). rewrite !optedOut_true in Hagree.
    unfold testShouldBeSkipped.
    destruct (IsInitialized _ && Contains _ suite1),
             (IsInitialized _ && Contains _ suite2); try done.
    - discriminate (proj1 Hagree eq_refl).
    - discriminate (proj2 Hagree eq_refl). }
  rewrite !selectTests_map. clear Hagree.
  induction tests as [|t tests IH]; [done|].
  assert (testShouldBeSkipped tbl t suite1 = testShouldBeSkipped tbl t suite2) as Ht.
  { apply Hv. apply list_elem_of_here. }
  assert ((map (selectOne tbl suite1) tests, countAll tbl suite1 tests)
          = (map (selectOne tbl suite2) tests, countAll tbl suite2 tests)) as Hrec.
  { apply IH. intros t' Ht'. apply Hv. by apply list_elem_of_further. }
  injection Hrec as Hm Hc.
  simpl. unfold selectOne at 1 3, countOne at 1 2. by rewrite Ht, Hm, Hc.
Qed.

Lemma suite_matters_through_optOut_witness :
  let a := mkTestSpec "A" "" "" (Some {["weekly"]}) in
  let tbl : gmap string testInfo := {["A" := mkTestInfo false 100 5]} in
  (∀ t, t ∈ [a] → (optedOut t "nightly" ↔ optedOut t "acceptance"))
  ∧ selectTests tbl "nightly" [a] = selectTests tbl "acceptance" [a].
Proof.
  assert (∀ t, t ∈ [mkTestSpec "A" "" "" (Some {["weekly"]})] →
            (optedOut t "nightly" ↔ optedOut t "acceptance")) as Hagree.
  { intros t Ht. apply list_elem_of_singleton in Ht. subst t.
    rewrite !optedOut_true. split; intros H; vm_compute in H; discriminate. }
  split; [exact Hagree|].
  exact (suite_matters_through_optOut _ "nightly" "acceptance" _ Hagree).
Defined.

(** X9. Candidates are judged one by one: the pass over two lists put end to
    end is the two passes put end to end, and the counts add. *)
Theorem selectTests_app
    (tbl : gmap string testInfo) (suite : string) (l1 l2 : list TestSpec) :
  selectTests tbl suite (l1 ++ l2)
  = ((selectTests tbl suite l1).1 ++ (selectTests tbl suite l2).1,
     (selectTests tbl suite l1).2 + (selectTests tbl suite l2).2).
Proof.
  rewrite !selectTests_map. simpl. by rewrite map_app, countAll_app.
Qed.

(** ** Further properties of the loader *)

Lemma loadRows_short (pre post : list (list string)) (d : list string)
    (tbl : gmap string testInfo) :
  Forall (fun r => (4 ≤ length r)%nat) pre → (length d < 4)%nat →
  loadRows tbl (pre ++ d :: post)
  = Panic (IndexOutOfRange (Nat.max 2 (length d)) (length d)).
Proof.
  revert tbl. induction pre as [|r pre IH]; intros tbl Hw Hd; simpl.
  - by rewrite loadRow_narrow.
  - apply Forall_cons in Hw as [Hr Hw]. rewrite loadRow_wide by done. simpl.
    by apply IH.
Qed.

(** The rows split into the wide ones in front and the first short one. *)
Lemma wide_or_first_short (rows : list (list string)) :
  Forall (fun r => (4 ≤ length r)%nat) rows
  ∨ ∃ pre d post, rows = pre ++ d :: post
                  ∧ Forall (fun r => (4 ≤ length r)%nat) pre ∧ (length d < 4)%nat.
Proof.
  induction rows as [|r rows IH]; [by left|].
  destruct (decide (4 ≤ length r)%nat) as [Hr|Hr].
  - destruct IH as [Hw|(pre & d & post & -> & Hw & Hd)].
    + left. by constructor.
    + right. exists (r :: pre), d, post. repeat split; [by constructor | done].
  - right. exists [], r, rows. repeat split; [constructor | lia].
Qed.

Lemma loadRows_Val_inv (rows : list (list string)) (tbl tbl' : gmap string testInfo) :
  loadRows tbl rows = Val tbl' →
  Forall (fun r => (4 ≤ length r)%nat) rows ∧ tbl' = foldl insertRow tbl rows.
Proof.
  intros Hl. destruct (wide_or_first_short rows) as [Hw|(pre & d & post & -> & Hw & Hd)].
  - split; [done|]. rewrite loadRows_wide in Hl by done. by injection Hl as <-.
  - rewrite loadRows_short in Hl by done. discriminate.
Qed.

Lemma insertRow_take (tbl : gmap string testInfo) (d : list string) :
  insertRow tbl (take 4 d) = insertRow tbl d.
Proof.
  unfold insertRow, rowName, rowInfo.
  rewrite (lookup_take_lt d 4 0) by lia.
  rewrite (lookup_take_lt d 4 1) by lia.
  rewrite (lookup_take_lt d 4 2) by lia.
  rewrite (lookup_take_lt d 4 3) by lia.
  reflexivity.
Qed.

Lemma insertRow_commute (tbl : gmap string testInfo) (d1 d2 : list string) :
  rowName d1 ≠ rowName d2 →
  insertRow (insertRow tbl d1) d2 = insertRow (insertRow tbl d2) d1.
Proof. intros Hne. unfold insertRow. by apply insert_insert_ne. Qed.

Lemma foldl_insertRow_perm (rows rows' : list (list string)) :
  rows ≡ₚ rows' → NoDup (rowName <$> rows) →
  ∀ tbl, foldl insertRow tbl rows = foldl insertRow tbl rows'.
Proof.
  induction 1 as [|x l l' Hp IH|x y l|l l' l'' Hp1 IH1 Hp2 IH2]; intros Hnd tbl.
  - done.
  - simpl. apply IH. by apply NoDup_cons in Hnd as [_ ?].
  - simpl. f_equal. apply insertRow_commute.
    rewrite !fmap_cons in Hnd. apply NoDup_cons in Hnd as [Hy _].
    intros Heq. apply Hy. rewrite Heq. apply list_elem_of_here.
  - rewrite IH1 by done. apply IH2. by rewrite <- Hp1.
Qed.

(** The table holds a record only for the name of some row, and then the one
    of the last such row. *)
Lemma foldl_insertRow_Some_inv (rows : list (list string)) (name : string)
    (info : testInfo) :
  foldl insertRow ∅ rows !! name = Some info →
  ∃ pre d post, rows = pre ++ d :: post ∧ rowName d = name
                ∧ Forall (fun d' => rowName d' ≠ name) post ∧ info = rowInfo d.
Proof.
  induction rows as [|d rows IH] using rev_ind; [done|].
  rewrite foldl_app. simpl. unfold insertRow at 1.
  destruct (decide (rowName d = name)) as [Heq|Hne].
  - rewrite Heq, lookup_insert_eq. intros [= <-].
    exists rows, d, []. by repeat split.
  - rewrite lookup_insert_ne by done. intros Hl.
    destruct (IH Hl) as (pre & d0 & post & -> & Hn & Hpost & ->).
    exists pre, d0, (post ++ [d]). rewrite <- app_assoc. repeat split; [done|].
    apply Forall_app. split; [done|]. by constructor.
Qed.

(** X10. The loader is all or nothing: it gives a table exactly when every row
    has at least 4 fields, and otherwise panics at the first shorter row,
    whatever rows come after: with index 2 when that row has fewer than three
    fields, with index 3 when it has three. *)
Theorem loader_all_or_nothing (tbl : gmap string testInfo) (rows : list (list string)) :
  (Forall (fun r => (4 ≤ length r)%nat) rows ↔ ∃ tbl', loadRows tbl rows = Val tbl')
  ∧ ∀ (pre post : list (list string)) (d : list string),
      rows = pre ++ d :: post →
      Forall (fun r => (4 ≤ length r)%nat) pre → (length d < 4)%nat →
      loadRows tbl rows = Panic (IndexOutOfRange (Nat.max 2 (length d)) (length d)).
Proof.
  split.
  - split.
    + intros Hw. eexists. by apply loadRows_wide.
    + intros [tbl' Hl]. by apply loadRows_Val_inv in Hl as [? _].
  - intros pre post d -> Hw Hd. by apply loadRows_short.
Qed.

Lemma loader_all_or_nothing_witness :
  let rows := [["A"; "no"; "100"; "5"]; ["B"]; ["C"; "no"; "7"]] in
  rows = [["A"; "no"; "100"; "5"]] ++ ["B"] :: [["C"; "no"; "7"]]
  ∧ Forall (fun r => (4 ≤ length r)%nat) [["A"; "no"; "100"; "5"]]
  ∧ (length ["B"] < 4)%nat
  ∧ loadRows ∅ rows = Panic (IndexOutOfRange 2 1).
Proof.
  assert (Forall (fun r => (4 ≤ length r)%nat) [["A"; "no"; "100"; "5"]]) as Hw.
  { repeat constructor; simpl; lia. }
  assert (length ["B"] < 4)%nat as Hd by (simpl; lia).
  split; [reflexivity|]. split; [exact Hw|]. split; [exact Hd|].
  exact (proj2 (loader_all_or_nothing ∅ [["A"; "no"; "100"; "5"]; ["B"]; ["C"; "no"; "7"]])
           [["A"; "no"; "100"; "5"]] [["C"; "no"; "7"]] ["B"] eq_refl Hw Hd).
Defined.

(** X11. The loader reads the first four fields of a row and nothing else:
    cutting every row down to its first four fields changes nothing. *)
Theorem extra_columns_ignored (tbl : gmap string testInfo) (rows : list (list string)) :
  Forall (fun r => (4 ≤ length r)%nat) rows →
  loadRows tbl rows = loadRows tbl (take 4 <$> rows).
Proof.
  intros Hw. rewrite !loadRows_wide.
  - f_equal. clear Hw. revert tbl.
    induction rows as [|d rows IH]; intros tbl; [done|].
    simpl. rewrite insertRow_take. apply IH.
  - apply Forall_fmap. eapply Forall_impl; [exact Hw|].
    intros r Hr. simpl in *. rewrite length_take. lia.
  - done.
Qed.

Lemma extra_columns_ignored_witness :
  let rows := [["A"; "no"; "100"; "5"; "kv"; "extra"]; ["B"; "yes"; "7"; "1"; "sql"; ""]] in
  Forall (fun r => (4 ≤ length r)%nat) rows
  ∧ loadRows ∅ rows = loadRows ∅ [["A"; "no"; "100"; "5"]; ["B"; "yes"; "7"; "1"]].
Proof.
  assert (Forall (fun r => (4 ≤ length r)%nat)
            [["A"; "no"; "100"; "5"; "kv"; "extra"]; ["B"; "yes"; "7"; "1"; "sql"; ""]]) as Hw.
  { repeat constructor; simpl; lia. }
  split; [exact Hw|].
  exact (extra_columns_ignored ∅ _ Hw).
Defined.

(** X12. When every row has its four fields and no two rows carry the same
    name, the order of the rows does not matter: any rearrangement of the rows
    loads the same table. *)
Theorem row_order_irrelevant (tbl : gmap string testInfo) (rows rows' : list (list string)) :
  rows ≡ₚ rows' →
  NoDup (rowName <$> rows) →
  Forall (fun r => (4 ≤ length r)%nat) rows →
  loadRows tbl rows = loadRows tbl rows'.
Proof.
  intros Hp Hnd Hw.
  rewrite !loadRows_wide; [|by rewrite <- Hp | done].
  f_equal. by apply foldl_insertRow_perm.
Qed.

Lemma row_order_irrelevant_witness :
  let rows := [["A"; "no"; "100"; "5"]; ["B"; "yes"; "7"; "1"]; ["C"; "no"; "3"; "2"]] in
  let rows' := [["C"; "no"; "3"; "2"]; ["A"; "no"; "100"; "5"]; ["B"; "yes"; "7"; "1"]] in
  rows ≡ₚ rows'
  ∧ NoDup (rowName <$> rows)
  ∧ Forall (fun r => (4 ≤ length r)%nat) rows
  ∧ loadRows ∅ rows = loadRows ∅ rows'.
Proof.
  assert ([["A"; "no"; "100"; "5"]; ["B"; "yes"; "7"; "1"]; ["C"; "no"; "3"; "2"]]
          ≡ₚ [["C"; "no"; "3"; "2"]; ["A"; "no"; "100"; "5"]; ["B"; "yes"; "7"; "1"]]) as Hp.
  { symmetry.
    apply (Permutation_cons_append [["A"; "no"; "100"; "5"]; ["B"; "yes"; "7"; "1"]]
             ["C"; "no"; "3"; "2"]). }
  assert (NoDup (rowName <$> [["A"; "no"; "100"; "5"]; ["B"; "yes"; "7"; "1"];
                              ["C"; "no"; "3"; "2"]])) as Hnd.
  { apply (bool_decide_unpack _). vm_compute. reflexivity. }
  assert (Forall (fun r => (4 ≤ length r)%nat)
            [["A"; "no"; "100"; "5"]; ["B"; "yes"; "7"; "1"]; ["C"; "no"; "3"; "2"]]) as Hw.
  { repeat constructor; simpl; lia. }
  split; [exact Hp|]. split; [exact Hnd|]. split; [exact Hw|].
  exact (row_order_irrelevant ∅ _ _ Hp Hnd Hw).
Defined.

(** X13. From the rows to the verdict: with the table loaded from [rows], the
    selector marks a candidate exactly when its skip is empty, it has not
    opted out of the suite, and the last row that carries its name has the
    text "no", letter for letter, in its second field. *)
Theorem marked_iff_last_row_says_no
    (rows : list (list string)) (tbl : gmap string testInfo)
    (suite : string) (t : TestSpec) :
  loadRows ∅ rows = Val tbl →
  (testShouldBeSkipped tbl t suite = true
   ↔ Skip t = ""
     ∧ ¬ optedOut t suite
     ∧ ∃ pre d post, rows = pre ++ d :: post
                     ∧ rowName d = Name t
                     ∧ Forall (fun d' => rowName d' ≠ Name t) post
                     ∧ d !! 1%nat = Some "no").
Proof.
  intros Hl. apply loadRows_Val_inv in Hl as [Hw ->].
  rewrite skipped_iff. unfold historicallyDeselected.
  assert (∀ d, d ∈ rows →
            (selected (rowInfo d) = false ↔ d !! 1%nat = Some "no")) as Hsel.
  { intros d Hd. rewrite Forall_forall in Hw. specialize (Hw d Hd).
    destruct d as [|a [|b rest]]; simpl in Hw; try lia.
    simpl. rewrite negb_false_iff, String.eqb_eq. split; [by intros -> | by intros [= ->]]. }
  split.
  - intros ((info & Hi & Hs) & Ho & Hskip). split; [done|]. split; [done|].
    apply foldl_insertRow_Some_inv in Hi as (pre & d & post & -> & Hn & Hpost & ->).
    exists pre, d, post. repeat split; [done | done |].
    apply Hsel; [|done]. apply elem_of_app. right. apply list_elem_of_here.
  - intros (Hskip & Ho & pre & d & post & -> & Hn & Hpost & Hno).
    split; [|done]. exists (rowInfo d). split.
    + rewrite <- Hn. apply foldl_insertRow_last. by rewrite Hn.
    + apply Hsel; [|done]. apply elem_of_app. right. apply list_elem_of_here.
Qed.

Lemma marked_iff_last_row_says_no_witness :
  let rows := [["A"; "no"; "100"; "5"]; ["A"; "No"; "250"; "6"]] in
  let tbl : gmap string testInfo := {["A" := mkTestInfo true 250 6]} in
  let a := mkTestSpec "A" "" "" None in
  loadRows ∅ rows = Val tbl
  ∧ (testShouldBeSkipped tbl a "nightly" = true
     ↔ Skip a = ""
       ∧ ¬ optedOut a "nightly"
       ∧ ∃ pre d post, rows = pre ++ d :: post
                       ∧ rowName d = Name a
                       ∧ Forall (fun d' => rowName d' ≠ Name a) post
                       ∧ d !! 1%nat = Some "no").
Proof.
  assert (loadRows ∅ [["A"; "no"; "100"; "5"]; ["A"; "No"; "250"; "6"]]
          = Val ({["A" := mkTestInfo true 250 6]} : gmap string testInfo)) as Hl.
  { vm_compute. reflexivity. }
  split; [exact Hl|].
  exact (marked_iff_last_row_says_no _ _ "nightly" (mkTestSpec "A" "" "" None) Hl).
Defined.

(** ** Further properties of the call *)

(** X14. The first record of the payload is never loaded: two payloads that
    differ only in their first record give the same result, even when that
    record reads like a data row. *)
Theorem header_row_is_discarded
    (pkg : Package) (w w' : World) (tests : list TestSpec) (cloud suite : string)
    (body body' : string) (h h' : list string) (rows : list (list string)) :
  fetchBody pkg w cloud suite = inr body →
  fetchBody pkg w' cloud suite = inr body' →
  csv_ReadAll body = Some (inr (h :: rows)) →
  csv_ReadAll body' = Some (inr (h' :: rows)) →
  ReadTestsToRun pkg w tests cloud suite = ReadTestsToRun pkg w' tests cloud suite.
Proof.
  intros Hf Hf' Hc Hc'. unfold ReadTestsToRun. rewrite Hf, Hf', Hc, Hc'.
  unfold len. simpl length. simpl tail. reflexivity.
Qed.

Lemma header_row_is_discarded_witness :
  let a := mkTestSpec "A" "" "" None in
  let body := unlines ["name,selected,avg_duration,total_runs"; "B,no,1,1"] in
  let body' := unlines ["A,no,100,5"; "B,no,1,1"] in
  ReadTestsToRun examplePackage (servingWorld body) [a] "gce" "nightly"
  = ReadTestsToRun examplePackage (servingWorld body') [a] "gce" "nightly"
  ∧ ReadTestsToRun examplePackage (servingWorld body') [a] "gce" "nightly"
    = ([a], Returned 1 None).
Proof.
  split; [|vm_compute; reflexivity].
  apply (header_row_is_discarded examplePackage
           (servingWorld (unlines ["name,selected,avg_duration,total_runs"; "B,no,1,1"]))
           (servingWorld (unlines ["A,no,100,5"; "B,no,1,1"]))
           [mkTestSpec "A" "" "" None] "gce" "nightly"
           (unlines ["name,selected,avg_duration,total_runs"; "B,no,1,1"])
           (unlines ["A,no,100,5"; "B,no,1,1"])
           ["name"; "selected"; "avg_duration"; "total_runs"]
           ["A"; "no"; "100"; "5"]
           [["B"; "no"; "1"; "1"]]);
    [reflexivity | reflexivity | vm_compute; reflexivity | vm_compute; reflexivity].
Defined.

(** X15. The call panics in one case only: the payload is fetched and parsed,
    it has at least two records, and its first record has fewer than 4
    fields. The panic is then the index out of range at index 2 for records
    of fewer than three fields and at index 3 for records of three. In
    particular a payload whose first record has 4 fields or more never makes
    the call panic. *)
Theorem call_panics_iff
    (pkg : Package) (w : World) (tests : list TestSpec) (cloud suite : string)
    (p : panic) :
  (ReadTestsToRun pkg w tests cloud suite).2 = Panicked p
  ↔ ∃ body h d rows,
      fetchBody pkg w cloud suite = inr body
      ∧ csv_ReadAll body = Some (inr (h :: d :: rows))
      ∧ (length h < 4)%nat
      ∧ p = IndexOutOfRange (Nat.max 2 (length h)) (length h).
Proof.
  unfold ReadTestsToRun. split.
  - destruct (fetchBody pkg w cloud suite) as [err|body]; [done|].
    destruct (csv_ReadAll body) as [[err|data]|] eqn:Hc; [done| |done].
    destruct (csv_ReadAll_uniform body data Hc) as [k Hk].
    destruct (Z.leb_spec (len data) 1) as [|Hl]; [done|].
    destruct data as [|h [|d rows]]; unfold len in Hl; simpl in Hl; try lia.
    simpl tail.
    destruct (loadRows ∅ (d :: rows)) as [tbl|q] eqn:Hload.
    { by destruct (selectTests tbl suite tests). }
    simpl. intros [= ->].
    apply Forall_cons in Hk as [Hh Hk].
    destruct (wide_or_first_short (d :: rows)) as [Hw|(pre & d' & post & Heq & Hw & Hd)].
    { rewrite loadRows_wide in Hload by done. discriminate. }
    rewrite Heq in Hload, Hk. rewrite loadRows_short in Hload by done.
    injection Hload as <-.
    apply Forall_app in Hk as [_ Hk]. apply Forall_cons in Hk as [Hd' _].
    exists body, h, d, rows.
    split; [done|]. split; [done|]. split; [lia|]. by rewrite Hh, Hd'.
  - intros (body & h & d & rows & Hf & Hc & Hh & ->). rewrite Hf, Hc.
    destruct (csv_ReadAll_uniform body _ Hc) as [k Hk].
    apply Forall_cons in Hk as [Hk1 Hk]. apply Forall_cons in Hk as [Hk2 _].
    destruct (Z.leb_spec (len (h :: d :: rows)) 1) as [Hl|_].
    { unfold len in Hl. simpl in Hl. lia. }
    simpl tail. simpl loadRows. rewrite loadRow_narrow by lia. simpl.
    by rewrite Hk1, Hk2.
Qed.

Lemma call_panics_iff_witness :
  let a := mkTestSpec "A" "" "" None in
  (ReadTestsToRun examplePackage (servingWorld (unlines ["name"; "A"])) [a]
     "gce" "nightly").2
  = Panicked (IndexOutOfRange 2 1).
Proof.
  apply (call_panics_iff examplePackage (servingWorld (unlines ["name"; "A"]))
           [mkTestSpec "A" "" "" None] "gce" "nightly" (IndexOutOfRange 2 1)).
  exists (unlines ["name"; "A"]), ["name"], ["A"], [].
  split; [reflexivity|]. split; [vm_compute; reflexivity|].
  split; [simpl; lia | reflexivity].
Defined.

(** ** The name of the object *)

Lemma append_nil_l (t : string) : EmptyString +:+ t = t.
Proof. reflexivity. Qed.

Lemma append_assoc (a b c : string) : (a +:+ b) +:+ c = a +:+ (b +:+ c).
Proof.
  induction a as [|x a IH]; [done|]. rewrite !append_cons. by rewrite IH.
Qed.

Lemma append_inj_r (s1 s2 t : string) : s1 +:+ t = s2 +:+ t → s1 = s2.
Proof.
  revert s2. induction s1 as [|a s1 IH]; intros [|b s2] Heq.
  - done.
  - apply (f_equal String.length) in Heq.
    rewrite !length_append in Heq. simpl in Heq. lia.
  - apply (f_equal String.length) in Heq.
    rewrite !length_append in Heq. simpl in Heq. lia.
  - rewrite !append_cons in Heq. injection Heq as -> Heq. f_equal. by apply IH.
Qed.

Lemma cut_fresh (c : ascii) (s rest : string) :
  cut c s = None → cut c (s +:+ String c rest) = Some (s, rest).
Proof.
  induction s as [|a s IH]; intros Hc.
  - change (EmptyString +:+ String c rest) with (String c rest).
    simpl. by rewrite Ascii.eqb_refl.
  - rewrite append_cons. simpl in *.
    destruct (Ascii.eqb a c); [done|].
    destruct (cut c s) as [[p q]|]; [done|]. by rewrite IH.
Qed.

(** X16. The object read is named after the suite and the cloud. For suites
    without a dash, different pairs of suite and cloud name different
    objects; with a dash in the suite they need not: a dash can move from the
    suite to the cloud without changing the name. *)
Theorem objectName_injective (pkg : Package) :
  (∀ cloud1 suite1 cloud2 suite2 : string,
     cut "-" suite1 = None → cut "-" suite2 = None →
     objectName pkg cloud1 suite1 = objectName pkg cloud2 suite2 →
     suite1 = suite2 ∧ cloud1 = cloud2)
  ∧ (∀ a b c : string,
       objectName pkg c (a +:+ "-" +:+ b) = objectName pkg (b +:+ "-" +:+ c) a).
Proof.
  split.
  - intros cloud1 suite1 cloud2 suite2 H1 H2. unfold objectName. intros Heq.
    apply (inj (String.append (testsFileLocation pkg))) in Heq.
    rewrite !(append_cons "-" EmptyString), !append_nil_l in Heq.
    injection Heq as Heq.
    apply (f_equal (cut "-")) in Heq.
    rewrite !cut_fresh in Heq by done.
    injection Heq as -> Heq. split; [done|].
    by apply append_inj_r in Heq.
  - intros a b c. unfold objectName. f_equal. f_equal.
    by rewrite !append_assoc.
Qed.

Lemma objectName_injective_witness :
  cut "-" "nightly" = None
  ∧ cut "-" "weekly" = None
  ∧ objectName examplePackage "gce" "nightly" = "selected-tests-nightly-gce.csv"
  ∧ ("nightly" = "nightly" ∧ "gce" = "gce").
Proof.
  split; [reflexivity|]. split; [reflexivity|]. split; [reflexivity|].
  exact (proj1 (objectName_injective examplePackage) "gce" "nightly" "gce" "nightly"
           eq_refl eq_refl eq_refl).
Defined.

(** ** Decimal cells *)

Lemma isDigit_range (a : ascii) : isDigit a = true → 0 ≤ byteZ a - 48 ≤ 9.
Proof.
  unfold isDigit. intros Hd. apply andb_true_iff in Hd as [H1 H2].
  apply Z.leb_le in H1, H2. lia.
Qed.

Lemma isDigit_not_sign (a : ascii) :
  isDigit a = true → Ascii.eqb a "+" = false ∧ Ascii.eqb a "-" = false.
Proof.
  intros Hd. split.
  - destruct (Ascii.eqb_spec a "+") as [->|]; [discriminate Hd | done].
  - destruct (Ascii.eqb_spec a "-") as [->|]; [discriminate Hd | done].
Qed.

Lemma decimalValue_from_ge (s : string) :
  ∀ n, allDigits s = true → 0 ≤ n → n ≤ decimalValue_from s n.
Proof.
  induction s as [|a s IH]; intros n Hs Hn; simpl; [lia|].
  simpl in Hs. apply andb_true_iff in Hs as [Ha Hs].
  pose proof (isDigit_range a Ha).
  specialize (IH (n * 10 + (byteZ a - 48)) Hs). lia.
Qed.

(** One turn of the loop on a digit: it goes on exactly when the new value
    fits [uint64]. *)
Lemma ParseUint_loop_step (a : ascii) (s : string) (n : Z) :
  isDigit a = true → 0 ≤ n ≤ maxUint64 →
  ParseUint_loop (String a s) n
  = if n * 10 + (byteZ a - 48) <=? maxUint64
    then ParseUint_loop s (n * 10 + (byteZ a - 48))
    else (maxUint64, Some ErrRange).
Proof.
  intros Hd Hn. pose proof (isDigit_range a Hd) as Hr.
  change (ParseUint_loop (String a s) n)
    with (match digitVal (byteZ a) with
          | None => (0, Some ErrSyntax)
          | Some d =>
              if 10 <=? d then (0, Some ErrSyntax)
              else if cutoff10 <=? n then (maxUint64, Some ErrRange)
              else
                let n10 := wrap_uint64 (n * 10) in
                let n1 := wrap_uint64 (n10 + d) in
                if (n1 <? n10) || (maxUint64 <? n1) then (maxUint64, Some ErrRange)
                else ParseUint_loop s n1
          end).
  unfold digitVal. unfold isDigit in Hd. rewrite Hd.
  assert (maxUint64 = 18446744073709551615) as HM by reflexivity.
  assert (cutoff10 = 1844674407370955162) as HC by reflexivity.
  assert (2 ^ 64 = 18446744073709551616) as HP by reflexivity.
  destruct (Z.leb_spec 10 (byteZ a - 48)); [lia|].
  destruct (Z.leb_spec cutoff10 n).
  { destruct (Z.leb_spec (n * 10 + (byteZ a - 48)) maxUint64); [lia | done]. }
  cbv zeta. unfold wrap_uint64.
  rewrite (Z.mod_small (n * 10)) by lia.
  destruct (Z.leb_spec (n * 10 + (byteZ a - 48)) maxUint64).
  - rewrite (Z.mod_small (n * 10 + (byteZ a - 48))) by lia.
    destruct (Z.ltb_spec (n * 10 + (byteZ a - 48)) (n * 10)); [lia|].
    destruct (Z.ltb_spec maxUint64 (n * 10 + (byteZ a - 48))); [lia|].
    reflexivity.
  - assert ((n * 10 + (byteZ a - 48)) mod 2 ^ 64 = n * 10 + (byteZ a - 48) - 2 ^ 64) as ->.
    { symmetry. apply (Z.mod_unique _ _ 1); lia. }
    destruct (Z.ltb_spec (n * 10 + (byteZ a - 48) - 2 ^ 64) (n * 10)); [done | lia].
Qed.

(** [ParseUint] on digits: their value when it fits [uint64], else the range
    error with the largest [uint64]. *)
Lemma ParseUint_loop_value (s : string) :
  ∀ n, allDigits s = true → 0 ≤ n ≤ maxUint64 →
    ParseUint_loop s n
    = if decimalValue_from s n <=? maxUint64 then (decimalValue_from s n, None)
      else (maxUint64, Some ErrRange).
Proof.
  induction s as [|a s IH]; intros n Hs Hn.
  - simpl. destruct (Z.leb_spec n maxUint64); [done | lia].
  - simpl in Hs. apply andb_true_iff in Hs as [Ha Hs].
    pose proof (isDigit_range a Ha) as Hr.
    rewrite ParseUint_loop_step by done. simpl decimalValue_from.
    destruct (Z.leb_spec (n * 10 + (byteZ a - 48)) maxUint64) as [Hle|Hgt].
    + apply IH; [done | lia].
    + pose proof (decimalValue_from_ge s (n * 10 + (byteZ a - 48)) Hs ltac:(lia)).
      destruct (Z.leb_spec (decimalValue_from s (n * 10 + (byteZ a - 48))) maxUint64);
        [lia | done].
Qed.

Lemma ParseUint_value (s : string) :
  s ≠ EmptyString → allDigits s = true →
  ParseUint s
  = if decimalValue s <=? maxUint64 then (decimalValue s, None)
    else (maxUint64, Some ErrRange).
Proof.
  intros Hne Hs.
  assert (ParseUint s = ParseUint_loop s 0) as -> by (by destruct s).
  apply ParseUint_loop_value; [done|]. unfold maxUint64. lia.
Qed.

Lemma to_int64_small (v : Z) : 0 ≤ v < 2 ^ 63 → to_int64 v = v.
Proof.
  assert (2 ^ 63 = 9223372036854775808) as HP by reflexivity.
  assert (2 ^ 64 = 18446744073709551616) as HQ by reflexivity.
  intros Hv. unfold to_int64. rewrite Z.mod_small by lia. lia.
Qed.

Lemma neg_to_int64 (v : Z) : 0 ≤ v ≤ 2 ^ 63 → neg_int64 (to_int64 v) = - v.
Proof.
  assert (2 ^ 63 = 9223372036854775808) as HP by reflexivity.
  assert (2 ^ 64 = 18446744073709551616) as HQ by reflexivity.
  intros Hv. destruct (decide (v = 2 ^ 63)) as [->|Hne]; [reflexivity|].
  rewrite to_int64_small by lia.
  unfold neg_int64, to_int64. rewrite Z.mod_small by lia. lia.
Qed.

(** X17. A cell of decimal digits, with or without a sign, is read as the
    number it denotes when that number fits [int64], leading zeros included;
    otherwise the value is the bound of [int64] on the side of the sign and
    [ParseInt] reports a range error. So [getDuration] and [getTotalRuns]
    clamp decimal numerals to the range of [int64]. *)
Theorem decimal_cells_are_clamped (s : string) :
  s ≠ EmptyString → allDigits s = true →
  ParseInt s
  = (if decimalValue s <=? MaxInt64 then (decimalValue s, None)
     else (MaxInt64, Some ErrRange))
  ∧ ParseInt (String "+" s) = ParseInt s
  ∧ ParseInt (String "-" s)
    = (if decimalValue s <=? - MinInt64 then (- decimalValue s, None)
       else (MinInt64, Some ErrRange))
  ∧ getDuration s = Z.min (decimalValue s) MaxInt64
  ∧ getTotalRuns (String "-" s) = Z.max (- decimalValue s) MinInt64.
Proof.
  intros Hne Hs.
  pose proof (ParseUint_value s Hne Hs) as Hu.
  pose proof (decimalValue_from_ge s 0 Hs ltac:(lia)) as Hge.
  fold (decimalValue s) in Hge.
  assert (maxUint64 = 18446744073709551615) as HM by reflexivity.
  assert (MaxInt64 = 9223372036854775807) as HX by reflexivity.
  assert (MinInt64 = -9223372036854775808) as HN by reflexivity.
  assert (2 ^ 63 = 9223372036854775808) as HP by reflexivity.
  assert (2 ^ 64 = 18446744073709551616) as HQ by reflexivity.
  assert (to_int64 (2 ^ 63 - 1) = MaxInt64) as Hmax by reflexivity.
  assert (neg_int64 (to_int64 (2 ^ 63)) = MinInt64) as Hmin by reflexivity.
  assert (ParseInt s
          = (if decimalValue s <=? MaxInt64 then (decimalValue s, None)
             else (MaxInt64, Some ErrRange))) as Hplain.
  { destruct s as [|c0 s1]; [done|].
    simpl in Hs. apply andb_true_iff in Hs as [Hc0 Hs1].
    destruct (isDigit_not_sign c0 Hc0) as [Hp Hm].
    unfold ParseInt. rewrite Hp, Hm, Hu.
    destruct (Z.leb_spec (decimalValue (String c0 s1)) maxUint64) as [Hfit|Hover].
    - destruct (Z.leb_spec (decimalValue (String c0 s1)) MaxInt64) as [Hin|Hout].
      + destruct (Z.leb_spec (2 ^ 63) (decimalValue (String c0 s1))); [lia|]. simpl.
        f_equal. apply to_int64_small. lia.
      + destruct (Z.leb_spec (2 ^ 63) (decimalValue (String c0 s1))); [|lia]. simpl.
        by rewrite Hmax.
    - destruct (Z.leb_spec (decimalValue (String c0 s1)) MaxInt64); [lia|].
      destruct (Z.leb_spec (2 ^ 63) maxUint64); [|lia]. simpl. by rewrite Hmax. }
  assert (ParseInt (String "+" s) = ParseInt s) as Hplus.
  { rewrite Hplain. unfold ParseInt.
    change (Ascii.eqb "+" "-") with false. change (Ascii.eqb "+" "+") with true.
    cbv iota. rewrite Hu.
    destruct (Z.leb_spec (decimalValue s) maxUint64) as [Hfit|Hover].
    - destruct (Z.leb_spec (decimalValue s) MaxInt64) as [Hin|Hout].
      + destruct (Z.leb_spec (2 ^ 63) (decimalValue s)); [lia|]. simpl.
        f_equal. apply to_int64_small. lia.
      + destruct (Z.leb_spec (2 ^ 63) (decimalValue s)); [|lia]. simpl.
        by rewrite Hmax.
    - destruct (Z.leb_spec (decimalValue s) MaxInt64); [lia|].
      destruct (Z.leb_spec (2 ^ 63) maxUint64); [|lia]. simpl. by rewrite Hmax. }
  assert (ParseInt (String "-" s)
          = (if decimalValue s <=? - MinInt64 then (- decimalValue s, None)
             else (MinInt64, Some ErrRange))) as Hminus.
  { unfold ParseInt.
    change (Ascii.eqb "-" "-") with true. change (Ascii.eqb "-" "+") with false.
    cbv iota. rewrite Hu.
    destruct (Z.leb_spec (decimalValue s) maxUint64) as [Hfit|Hover].
    - destruct (Z.leb_spec (decimalValue s) (- MinInt64)) as [Hin|Hout].
      + destruct (Z.ltb_spec (2 ^ 63) (decimalValue s)); [lia|]. simpl.
        f_equal. apply neg_to_int64. lia.
      + destruct (Z.ltb_spec (2 ^ 63) (decimalValue s)); [|lia]. simpl.
        by rewrite Hmin.
    - destruct (Z.leb_spec (decimalValue s) (- MinInt64)); [lia|].
      destruct (Z.ltb_spec (2 ^ 63) maxUint64); [|lia]. simpl. by rewrite Hmin. }
  split; [exact Hplain|]. split; [exact Hplus|]. split; [exact Hminus|]. split.
  - unfold getDuration. rewrite Hplain.
    destruct (Z.leb_spec (decimalValue s) MaxInt64); simpl; lia.
  - unfold getTotalRuns. rewrite Hminus.
    destruct (Z.leb_spec (decimalValue s) (- MinInt64)); simpl; lia.
Qed.

Lemma decimal_cells_are_clamped_witness :
  "00250" ≠ EmptyString
  ∧ allDigits "00250" = true
  ∧ ParseInt "00250" = (250, None)
  ∧ ParseInt "-00250" = (-250, None).
Proof.
  assert ("00250" ≠ EmptyString) as Hne by discriminate.
  assert (allDigits "00250" = true) as Hd by reflexivity.
  pose proof (decimal_cells_are_clamped "00250" Hne Hd) as (Hp & _ & Hm & _).
  split; [exact Hne|]. split; [exact Hd|]. split; [exact Hp | exact Hm].
Defined.

(** ** The CSV reader on plain payloads *)

Lemma csvRun_mono (fuel : nat) :
  ∀ s r, csvRun fuel s = Some r → csvRun (S fuel) s = Some r.
Proof.
  induction fuel as [|fuel IH]; intros s r Hr.
  - destruct s; try discriminate. exact Hr.
  - destruct s; try exact Hr; apply IH in Hr; exact Hr.
Qed.

Lemma csvRun_le (fuel fuel' : nat) (s : csvState) (r : csvError + list (list string)) :
  (fuel ≤ fuel')%nat → csvRun fuel s = Some r → csvRun fuel' s = Some r.
Proof.
  induction 1 as [|fuel' _ IH]; [done|]. intros Hr. by apply csvRun_mono, IH.
Qed.

Lemma csvResult_step (s : csvState) (r : csvError + list (list string)) :
  csvResult (csvStep s) r → csvResult s r.
Proof.
  intros [fuel Hr]. exists (S fuel). destruct s; try exact Hr.
  by apply csvRun_mono.
Qed.

Lemma csvResult_Finished (r : csvError + list (list string)) : csvResult (Finished r) r.
Proof. by exists 0%nat. Qed.

Lemma csvResult_det (s : csvState) (r r' : csvError + list (list string)) :
  csvResult s r → csvResult s r' → r = r'.
Proof.
  intros [f Hr] [f' Hr'].
  apply (csvRun_le f (f `max` f')) in Hr; [|lia].
  apply (csvRun_le f' (f `max` f')) in Hr'; [|lia].
  congruence.
Qed.

Lemma csv_ReadAll_of_result (body : string) (r : csvError + list (list string)) :
  csvResult (AtRecord body 0 []) r → csv_ReadAll body = Some r.
Proof.
  intros Hr. destruct (csv_ReadAll_total body) as [r' Hr'].
  rewrite Hr'. f_equal. apply (csvResult_det (AtRecord body 0 [])); [|done].
  by eexists.
Qed.

Lemma cut_found (c : ascii) (pre post : string) : cut c (pre +:+ String c post) ≠ None.
Proof.
  induction pre as [|a pre IH].
  - rewrite append_nil_l. simpl. by rewrite Ascii.eqb_refl.
  - rewrite append_cons. simpl. destruct (Ascii.eqb a c); [done|].
    by destruct (cut c (pre +:+ String c post)) as [[p q]|].
Qed.

Lemma cut_append_None (c : ascii) (a b : string) :
  cut c a = None → cut c b = None → cut c (a +:+ b) = None.
Proof.
  intros Ha Hb. induction a as [|x a IH]; [by rewrite append_nil_l|].
  rewrite append_cons. simpl in *.
  destruct (Ascii.eqb x c); [done|].
  destruct (cut c a) as [[p q]|]; [done|]. by rewrite IH.
Qed.

Lemma cut_cons_None (c x : ascii) (s : string) :
  x ≠ c → cut c s = None → cut c (String x s) = None.
Proof.
  intros Hx Hs. simpl. destruct (Ascii.eqb_spec x c); [done|]. by rewrite Hs.
Qed.

Lemma plainField_cut (f : string) (c : ascii) :
  plainField f = true →
  c = comma ∨ c = dquote ∨ c = newline ∨ c = carriageReturn →
  cut c f = None.
Proof.
  intros Hp Hc. induction f as [|x f IH]; [done|].
  simpl in Hp. rewrite !andb_true_iff, !negb_true_iff in Hp.
  destruct Hp as ((((H1 & H2) & H3) & H4) & Hf).
  apply cut_cons_None; [|by apply IH].
  apply Ascii.eqb_neq in H1, H2, H3, H4.
  destruct Hc as [-> | [-> | [-> | ->]]]; done.
Qed.

Lemma joinFields_cons (f : string) (fs : list string) :
  fs ≠ [] → joinFields (f :: fs) = f +:+ String comma (joinFields fs).
Proof. by destruct fs. Qed.

Lemma joinFields_cut (fs : list string) (c : ascii) :
  Forall (fun f => plainField f = true) fs →
  c = dquote ∨ c = newline ∨ c = carriageReturn →
  cut c (joinFields fs) = None.
Proof.
  intros Hp Hc. induction Hp as [|f fs Hf _ IH]; [done|].
  destruct fs as [|f2 fs].
  - apply plainField_cut; [done | tauto].
  - rewrite joinFields_cons by done.
    apply cut_append_None; [apply plainField_cut; [done | tauto]|].
    apply cut_cons_None; [|done].
    destruct Hc as [-> | [-> | ->]]; discriminate.
Qed.

Lemma unsnoc_last_not (c : ascii) (s init : string) (y : ascii) :
  cut c s = None → unsnoc s = Some (init, y) → y ≠ c.
Proof.
  intros Hc Hu ->. apply unsnoc_spec in Hu. subst s. by apply cut_found in Hc.
Qed.

Lemma normalizeCRLF_plain (line : string) :
  cut carriageReturn line = None →
  normalizeCRLF (line +:+ String newline EmptyString) = line +:+ String newline EmptyString.
Proof.
  intros Hc. unfold normalizeCRLF. rewrite unsnoc_snoc.
  change (Ascii.eqb newline newline) with true. cbv iota.
  destruct (unsnoc line) as [[i y]|] eqn:Hu; [|done].
  pose proof (unsnoc_last_not _ _ _ _ Hc Hu) as Hy.
  by destruct (Ascii.eqb_spec y carriageReturn).
Qed.

Lemma readLine_plain (line rest : string) :
  cut newline line = None → cut carriageReturn line = None →
  readLine (line +:+ String newline rest)
  = (line +:+ String newline EmptyString, rest, false).
Proof.
  intros Hn Hc. unfold readLine. rewrite cut_fresh by done.
  by rewrite normalizeCRLF_plain.
Qed.

Lemma lengthNL_snoc (line : string) : lengthNL (line +:+ String newline EmptyString) = 1%nat.
Proof. unfold lengthNL. by rewrite unsnoc_snoc. Qed.

Lemma trimNL_snoc (line : string) : trimNL (line +:+ String newline EmptyString) = line.
Proof. unfold trimNL. by rewrite unsnoc_snoc. Qed.

Lemma nextByte_plain (f : string) (c : ascii) (more : string) :
  plainField f = true → c ≠ dquote →
  byteIs dquote (nextByte (f +:+ String c more)) = false.
Proof.
  intros Hp Hc. destruct f as [|x f].
  - rewrite append_nil_l. simpl. by apply Ascii.eqb_neq.
  - rewrite append_cons. simpl.
    simpl in Hp. rewrite !andb_true_iff, !negb_true_iff in Hp. tauto.
Qed.

(** The loop over the fields of a plain line ends the record with the fields
    of the line added. *)
Lemma plain_fields_run (fs : list string) :
  ∀ (dst : list string) (rest : string) (fpr : nat) (recs : list (list string))
    (r : csvError + list (list string)),
    fs ≠ [] → Forall (fun f => plainField f = true) fs →
    csvResult (endRecord (dst ++ fs) rest fpr recs) r →
    csvResult (AtField (joinFields fs +:+ String newline EmptyString) rest dst fpr recs) r.
Proof.
  induction fs as [|f fs IH]; intros dst rest fpr recs r Hne Hp Hr; [done|].
  apply Forall_cons in Hp as [Hf Hp].
  apply csvResult_step. unfold csvStep.
  destruct fs as [|f2 fs].
  - simpl joinFields.
    rewrite nextByte_plain by (done || discriminate).
    rewrite cut_append_None;
      [|apply plainField_cut; [done | tauto] | reflexivity].
    rewrite trimNL_snoc.
    rewrite (plainField_cut f dquote) by (done || tauto).
    rewrite bool_decide_eq_false_2 by (intros [? ?]; discriminate).
    exact Hr.
  - rewrite joinFields_cons by done.
    rewrite append_assoc, append_cons.
    rewrite nextByte_plain by (done || discriminate).
    rewrite cut_fresh by (apply plainField_cut; [done | tauto]).
    rewrite (plainField_cut f dquote) by (done || tauto).
    rewrite bool_decide_eq_false_2 by (intros [? ?]; discriminate).
    apply IH; [done | done |].
    by rewrite <- app_assoc.
Qed.

Lemma renderRows_cons (row : list string) (rows : list (list string)) :
  renderRows (row :: rows) = joinFields row +:+ String newline (renderRows rows).
Proof. reflexivity. Qed.

Lemma renderRows_app (rows rows' : list (list string)) :
  renderRows (rows ++ rows') = renderRows rows +:+ renderRows rows'.
Proof.
  induction rows as [|row rows IH]; [done|].
  change ((row :: rows) ++ rows') with (row :: (rows ++ rows')).
  rewrite !renderRows_cons, IH, append_assoc. by rewrite append_cons.
Qed.

(** From the head of a plain line to the end of its record. *)
Lemma plain_record_run (row : list string) (rest : string) (fpr : nat)
    (recs : list (list string)) (r : csvError + list (list string)) :
  plainRecord row →
  csvResult (endRecord row rest fpr recs) r →
  csvResult (AtRecord (joinFields row +:+ String newline rest) fpr recs) r.
Proof.
  intros [Hp Hne] Hr. apply csvResult_step. unfold csvStep.
  rewrite readLine_plain by (apply joinFields_cut; [done | tauto]).
  rewrite lengthNL_snoc, length_append.
  destruct (joinFields row) as [|c j] eqn:Hj; [done|].
  simpl String.length. rewrite Nat.add_1_r. simpl Nat.eqb. rewrite <- Hj.
  apply plain_fields_run; [|done|done].
  intros ->. discriminate.
Qed.

(** Plain records of one width are read back as they are. *)
Lemma plain_rows_run (rows : list (list string)) :
  ∀ (k fpr : nat) (recs : list (list string)),
    Forall plainRecord rows → Forall (fun r => length r = k) rows →
    fpr = 0%nat ∨ fpr = k →
    csvResult (AtRecord (renderRows rows) fpr recs) (inr (recs ++ rows)).
Proof.
  induction rows as [|row rows IH]; intros k fpr recs Hp Hk Hfpr.
  - apply csvResult_step. simpl. rewrite app_nil_r. apply csvResult_Finished.
  - apply Forall_cons in Hp as [Hrow Hp]. apply Forall_cons in Hk as [Hlen Hk].
    rewrite renderRows_cons. apply plain_record_run; [done|].
    replace (recs ++ row :: rows) with ((recs ++ [row]) ++ rows)
      by (by rewrite <- app_assoc).
    unfold endRecord. destruct (0 <? fpr)%nat eqn:Hpos.
    + apply Nat.ltb_lt in Hpos. destruct Hfpr as [-> | ->]; [lia|].
      rewrite Hlen, Nat.eqb_refl. simpl. apply (IH (length row)); [done| |by right].
      by rewrite Hlen.
    + apply Nat.ltb_ge in Hpos. apply (IH k); [done | done | by right].
Qed.

(** A plain record of another width than the ones before ends the read with
    the field-count error, whatever follows it. *)
Lemma plain_rows_mismatch (pre : list (list string)) :
  ∀ (k fpr : nat) (recs : list (list string)) (bad : list string) (rest : string),
    Forall plainRecord pre → Forall (fun r => length r = k) pre →
    plainRecord bad → length bad ≠ k →
    (fpr = 0%nat ∧ pre ≠ []) ∨ (fpr = k ∧ (0 < k)%nat) →
    csvResult (AtRecord (renderRows pre +:+ joinFields bad +:+ String newline rest) fpr recs)
              (inl ErrFieldCount).
Proof.
  induction pre as [|row pre IH]; intros k fpr recs bad rest Hp Hk Hbad Hlen Hfpr.
  - rewrite append_nil_l. destruct Hfpr as [[_ ?]|[-> Hpos]]; [done|].
    apply plain_record_run; [done|]. unfold endRecord.
    apply Nat.ltb_lt in Hpos. rewrite Hpos.
    apply Nat.eqb_neq in Hlen. rewrite Hlen. simpl. apply csvResult_Finished.
  - apply Forall_cons in Hp as [Hrow Hp]. apply Forall_cons in Hk as [Hrk Hk].
    assert (0 < length row)%nat as Hrowpos.
    { destruct Hrow as [_ Hj]. destruct row; [done | simpl; lia]. }
    rewrite renderRows_cons, append_assoc, append_cons.
    apply plain_record_run; [done|].
    unfold endRecord. destruct (0 <? fpr)%nat eqn:Hpos.
    + apply Nat.ltb_lt in Hpos. destruct Hfpr as [[-> _]|[-> _]]; [lia|].
      rewrite Hrk, Nat.eqb_refl. simpl.
      apply (IH k); [done | done | done | done | right; split; [done | lia]].
    + apply Nat.ltb_ge in Hpos.
      apply (IH k); [done | done | done | done | right; split; [done | lia]].
Qed.

Lemma selectTests_empty_table (suite : string) (tests : list TestSpec) :
  selectTests ∅ suite tests = (tests, len tests).
Proof.
  rewrite selectTests_map.
  assert (∀ t, testShouldBeSkipped ∅ t suite = false) as Hn.
  { intros t. unfold testShouldBeSkipped.
    destruct (IsInitialized _ && Contains _ _); [done|]. by rewrite lookup_empty. }
  f_equal.
  - induction tests as [|t tests IH]; [done|].
    simpl. unfold selectOne at 1. by rewrite Hn, IH.
  - apply countAll_none_skipped. apply Forall_forall. intros t _. apply Hn.
Qed.

Lemma csv_ReadAll_plain_rows (rows : list (list string)) (k : nat) :
  Forall plainRecord rows →
  Forall (fun r => length r = k) rows →
  csv_ReadAll (renderRows rows) = Some (inr rows).
Proof.
  intros Hp Hk. apply csv_ReadAll_of_result.
  apply (plain_rows_run rows k 0 [] Hp Hk). by left.
Qed.

(** X18. A payload written as plain lines, one record per line with its fields
    joined by commas, every record of the same width, is read back as exactly
    those records. *)
Theorem plain_payload_round_trip (rows : list (list string)) (k : nat) :
  Forall plainRecord rows →
  Forall (fun r => length r = k) rows →
  csv_ReadAll (renderRows rows) = Some (inr rows).
Proof. apply csv_ReadAll_plain_rows. Qed.

Lemma plain_payload_round_trip_witness :
  let rows := [["name"; "selected"; "avg_duration"; "total_runs"];
               ["acceptance/version-upgrade"; "no"; "100"; ""]] in
  Forall plainRecord rows
  ∧ Forall (fun r => length r = 4%nat) rows
  ∧ csv_ReadAll (renderRows rows) = Some (inr rows).
Proof.
  assert (Forall plainRecord
            [["name"; "selected"; "avg_duration"; "total_runs"];
             ["acceptance/version-upgrade"; "no"; "100"; ""]]) as Hp.
  { repeat constructor; discriminate. }
  assert (Forall (fun r => length r = 4%nat)
            [["name"; "selected"; "avg_duration"; "total_runs"];
             ["acceptance/version-upgrade"; "no"; "100"; ""]]) as Hk.
  { repeat constructor. }
  split; [exact Hp|]. split; [exact Hk|].
  exact (plain_payload_round_trip _ 4 Hp Hk).
Defined.

(** X19. The call on a well-formed payload, from the bytes to the result: when
    the object holds a header line and data lines of plain fields, all of one
    width of at least 4, the call returns without error what the pass of the
    selector gives for the table that holds, for each name, the record of its
    last line. With no data line that is every candidate unchanged and
    counted. *)
Theorem well_formed_payload_end_to_end
    (pkg : Package) (w : World) (tests : list TestSpec) (cloud suite : string)
    (header : list string) (rows : list (list string)) (k : nat) :
  fetchBody pkg w cloud suite = inr (renderRows (header :: rows)) →
  Forall plainRecord (header :: rows) →
  Forall (fun r => length r = k) (header :: rows) →
  (4 ≤ k)%nat →
  ReadTestsToRun pkg w tests cloud suite
  = ((selectTests (foldl insertRow ∅ rows) suite tests).1,
     Returned (selectTests (foldl insertRow ∅ rows) suite tests).2 None).
Proof.
  intros Hf Hp Hk H4.
  pose proof (csv_ReadAll_plain_rows _ k Hp Hk) as Hc.
  unfold ReadTestsToRun. rewrite Hf, Hc.
  destruct rows as [|d rows].
  - simpl. by rewrite selectTests_empty_table.
  - destruct (Z.leb_spec (len (header :: d :: rows)) 1) as [Hl|_].
    { unfold len in Hl. simpl in Hl. lia. }
    simpl tail. rewrite loadRows_wide.
    + by destruct (selectTests (foldl insertRow ∅ (d :: rows)) suite tests).
    + apply Forall_cons in Hk as [_ Hk].
      eapply Forall_impl; [exact Hk|]. intros r Hr. simpl in *. lia.
Qed.

Lemma well_formed_payload_end_to_end_witness :
  let a := mkTestSpec "A" "" "" None in
  let b := mkTestSpec "B" "" "" None in
  let header := ["name"; "selected"; "avg_duration"; "total_runs"] in
  let rows := [["A"; "no"; "100"; "5"]; ["B"; "yes"; "7"; "1"]] in
  let w := servingWorld (renderRows (header :: rows)) in
  fetchBody examplePackage w "gce" "nightly" = inr (renderRows (header :: rows))
  ∧ Forall plainRecord (header :: rows)
  ∧ Forall (fun r => length r = 4%nat) (header :: rows)
  ∧ ReadTestsToRun examplePackage w [a; b] "gce" "nightly"
    = ((selectTests (foldl insertRow ∅ rows) "nightly" [a; b]).1,
       Returned (selectTests (foldl insertRow ∅ rows) "nightly" [a; b]).2 None)
  ∧ selectTests (foldl insertRow ∅ rows) "nightly" [a; b] = ([markSkipped a; b], 1).
Proof.
  assert (Forall plainRecord
            [["name"; "selected"; "avg_duration"; "total_runs"];
             ["A"; "no"; "100"; "5"]; ["B"; "yes"; "7"; "1"]]) as Hp.
  { repeat constructor; discriminate. }
  assert (Forall (fun r => length r = 4%nat)
            [["name"; "selected"; "avg_duration"; "total_runs"];
             ["A"; "no"; "100"; "5"]; ["B"; "yes"; "7"; "1"]]) as Hk.
  { repeat constructor. }
  split; [reflexivity|]. split; [exact Hp|]. split; [exact Hk|].
  split; [|vm_compute; reflexivity].
  apply (well_formed_payload_end_to_end examplePackage
           (servingWorld
              (renderRows [["name"; "selected"; "avg_duration"; "total_runs"];
                           ["A"; "no"; "100"; "5"]; ["B"; "yes"; "7"; "1"]]))
           [mkTestSpec "A" "" "" None; mkTestSpec "B" "" "" None] "gce" "nightly"
           ["name"; "selected"; "avg_duration"; "total_runs"]
           [["A"; "no"; "100"; "5"]; ["B"; "yes"; "7"; "1"]] 4 eq_refl Hp Hk).
  lia.
Defined.

(** X20. A line with another number of fields than the lines before it makes
    the whole call fail: when plain lines of one width are followed by a
    plain line of another width, the call returns the wrapped field-count
    error with the number of candidates and changes no candidate, whatever
    comes after that line. *)
Theorem field_count_mismatch_is_an_error
    (pkg : Package) (w : World) (tests : list TestSpec) (cloud suite : string)
    (pre post : list (list string)) (bad : list string) (k : nat) :
  fetchBody pkg w cloud suite = inr (renderRows (pre ++ bad :: post)) →
  pre ≠ [] →
  Forall plainRecord pre →
  Forall (fun r => length r = k) pre →
  plainRecord bad →
  length bad ≠ k →
  ReadTestsToRun pkg w tests cloud suite
  = (tests,
     Returned (len tests)
       (Some (AssertionErrorWrapped (CsvParseError ErrFieldCount) "failed to read CSV data"))).
Proof.
  intros Hf Hne Hp Hk Hbad Hlen.
  assert (csv_ReadAll (renderRows (pre ++ bad :: post)) = Some (inl ErrFieldCount)) as Hc.
  { apply csv_ReadAll_of_result. rewrite renderRows_app, renderRows_cons.
    apply (plain_rows_mismatch pre k); try done. by left. }
  unfold ReadTestsToRun. by rewrite Hf, Hc.
Qed.

Lemma field_count_mismatch_is_an_error_witness :
  let a := mkTestSpec "A" "" "" None in
  let pre := [["name"; "selected"; "avg_duration"; "total_runs"]; ["A"; "no"; "100"; "5"]] in
  let bad := ["B"; "no"; "7"] in
  let post := [["C"; "no"; "1"; "1"]] in
  let w := servingWorld (renderRows (pre ++ bad :: post)) in
  Forall plainRecord pre
  ∧ plainRecord bad
  ∧ ReadTestsToRun examplePackage w [a] "gce" "nightly"
    = ([a],
       Returned 1
         (Some (AssertionErrorWrapped (CsvParseError ErrFieldCount)
                  "failed to read CSV data"))).
Proof.
  assert (Forall plainRecord
            [["name"; "selected"; "avg_duration"; "total_runs"]; ["A"; "no"; "100"; "5"]])
    as Hp.
  { repeat constructor; discriminate. }
  assert (plainRecord ["B"; "no"; "7"]) as Hbad.
  { repeat constructor; discriminate. }
  split; [exact Hp|]. split; [exact Hbad|].
  apply (field_count_mismatch_is_an_error examplePackage
           (servingWorld
              (renderRows
                 ([["name"; "selected"; "avg_duration"; "total_runs"];
                   ["A"; "no"; "100"; "5"]] ++ ["B"; "no"; "7"] :: [["C"; "no"; "1"; "1"]])))
           [mkTestSpec "A" "" "" None] "gce" "nightly"
           [["name"; "selected"; "avg_duration"; "total_runs"]; ["A"; "no"; "100"; "5"]]
           [["C"; "no"; "1"; "1"]] ["B"; "no"; "7"] 4 eq_refl).
  - discriminate.
  - exact Hp.
  - repeat constructor.
  - exact Hbad.
  - simpl. lia.
Defined.
